(** * FIT activity analysis: record extraction, work integration, metrics

    A shallow embedding of [fit_analyze_gui_v4.py].

    Numbers.  The program computes on IEEE doubles; here a finite double is
    an exact rational ([Q]) and arithmetic is exact.  A value of type
    [option Q] that stands for a double reads [None] as NaN; in a pandas
    column [None] is the missing entry ([isna] is true there), whether pandas
    stores it as NaN (float64 column) or as the Python object None (a column
    in which no record has a value, which [DataFrame.from_records] leaves
    with dtype object).  The two storages differ only where single cells
    reach Python code, see [cell] and [at_], and where pandas subtracts
    objects, see [column_diff].

    Timestamps are seconds (UTC).  Every record message carries one (field
    253 of a FIT record); what the extractor does with a record that lacks
    it is outside this model. *)

From Stdlib Require Import String Ascii.
From Stdlib Require Import ZArith Lia Bool List.
From Stdlib Require Import QArith Qminmax Qround Qabs Lqa.
From Stdlib Require Import Sorting.Sorted Sorting.Permutation.
Import ListNotations.
Open Scope string_scope.
Open Scope list_scope.
Open Scope Q_scope.

(** ** Python values *)

(** Exceptions the modelled code can raise. *)
Inductive exn := TypeError.

Inductive result (A : Type) : Type :=
| Ok (a : A)
| Raise (e : exn).
Arguments Ok {A} a.
Arguments Raise {A} e.

Definition bind {A B} (r : result A) (k : A -> result B) : result B :=
  match r with
  | Ok a => k a
  | Raise e => Raise e
  end.

Notation "x <- r ;; k" := (bind r (fun x => k))
  (at level 61, r at next level, right associativity).

(** Truth value of an [Optional[float]] argument: None and 0.0 are false. *)
Definition truthy (x : option Q) : bool :=
  match x with
  | Some q => negb (Qeq_bool q 0)
  | None => false
  end.

(** [x or 0.0] on a double: NaN is true, so it stays. *)
Definition or_zero (x : option Q) : option Q :=
  match x with
  | Some q => if Qeq_bool q 0 then Some 0 else Some q
  | None => None
  end.

(** [round(x)] to the nearest integer, ties to the even one. *)
Definition round_half_even (x : Q) : Z :=
  let f := Qfloor x in
  match Qcompare (x - inject_Z f) (1 # 2) with
  | Lt => f
  | Gt => (f + 1)%Z
  | Eq => if Z.even f then f else (f + 1)%Z
  end.

(** [round(x, ndigits)]. *)
Definition py_round (x : Q) (ndigits : nat) : Q :=
  let scale := inject_Z (10 ^ Z.of_nat ndigits) in
  inject_Z (round_half_even (x * scale)) / scale.

(** [round] on a double that may be NaN. *)
Definition fround (x : option Q) (ndigits : nat) : option Q :=
  option_map (fun q => py_round q ndigits) x.

(** ** pandas Series *)

Module Series.

Definition t := list (option Q).

Definition is_na (x : option Q) : bool :=
  match x with
  | None => true
  | Some _ => false
  end.

Definition isna (s : t) : list bool := map is_na s.
Definition notna (s : t) : list bool := map (fun x => negb (is_na x)) s.

(** Boolean masks: [.all()], [.any()], [.sum()], [.mean()]. *)
Definition all (m : list bool) : bool := forallb (fun b => b) m.
Definition any (m : list bool) : bool := existsb (fun b => b) m.
Definition count (m : list bool) : nat := length (filter (fun b => b) m).
Definition mask_mean (m : list bool) : Q :=
  inject_Z (Z.of_nat (count m)) / inject_Z (Z.of_nat (length m)).

Definition fillna (v : Q) (s : t) : t :=
  map (fun x => match x with None => Some v | Some _ => x end) s.

Definition lift2 (f : Q -> Q -> Q) (a b : option Q) : option Q :=
  match a, b with
  | Some x, Some y => Some (f x y)
  | _, _ => None
  end.

Fixpoint map2 {A B C} (f : A -> B -> C) (a : list A) (b : list B) : list C :=
  match a, b with
  | x :: a', y :: b' => f x y :: map2 f a' b'
  | _, _ => []
  end.

Definition add (a b : t) : t := map2 (lift2 Qplus) a b.
Definition sub (a b : t) : t := map2 (lift2 Qminus) a b.
Definition mul (a b : t) : t := map2 (lift2 Qmult) a b.
Definition div (a b : t) : t := map2 (lift2 Qdiv) a b.
Definition div_scalar (a : t) (c : Q) : t := map (option_map (fun x => x / c)) a.

(** [s.shift(1)]: every entry moves one place down, the first is missing. *)
Fixpoint shift_with (fill : option Q) (s : t) : t :=
  match s with
  | [] => []
  | x :: r => fill :: shift_with x r
  end.
Definition shift (s : t) : t := shift_with None s.

(** [s.diff()] is [s - s.shift(1)]. *)
Definition diff (s : t) : t := sub s (shift s).

(** [s.mask(cond)]: missing where the condition holds. *)
Definition mask (s : t) (cond : list bool) : t :=
  map2 (fun x (c : bool) => if c then None else x) s cond.

(** [s == c] and [s > c], false on a missing entry. *)
Definition eq_scalar (s : t) (c : Q) : list bool :=
  map (fun x => match x with Some q => Qeq_bool q c | None => false end) s.
Definition gt_scalar (s : t) (c : Q) : list bool :=
  map (fun x => match x with Some q => negb (Qle_bool q c) | None => false end) s.

(** [s[cond]]: the entries where the condition holds. *)
Fixpoint select {A} (s : list A) (cond : list bool) : list A :=
  match s, cond with
  | x :: s', c :: cond' => if c then x :: select s' cond' else select s' cond'
  | _, _ => []
  end.

(** [s.sum(skipna=True)]: 0 when nothing is present. *)
Fixpoint sum (s : t) : Q :=
  match s with
  | [] => 0
  | Some q :: r => q + sum r
  | None :: r => sum r
  end.

(** [s.max(skipna=True)]: NaN when nothing is present. *)
Fixpoint max (s : t) : option Q :=
  match s with
  | [] => None
  | None :: r => max r
  | Some q :: r =>
      match max r with
      | Some m => Some (Qmax q m)
      | None => Some q
      end
  end.

(** [s.mean()]: over the present entries, NaN when there is none. *)
Definition mean (s : t) : option Q :=
  let n := count (notna s) in
  match n with
  | O => None
  | _ => Some (sum s / inject_Z (Z.of_nat n))
  end.

(** A column in which no record has a value keeps dtype object. *)
Definition is_object (s : t) : bool := all (isna s).

End Series.

(** ** Samples and frames *)

(** One row of the frame built in [parse_fit_records]. *)
Record Sample := mkSample {
  timestamp : Q;
  latitude_deg : option Q;
  longitude_deg : option Q;
  altitude_m : option Q;
  speed_m_s : option Q;
  distance_m : option Q;
  heart_rate_bpm : option Q;
  cadence_rpm : option Q;
  power_w : option Q;
  temperature_c : option Q
}.

Definition DataFrame := list Sample.

(** [df[name]] *)
Definition col (f : Sample -> option Q) (df : DataFrame) : Series.t := map f df.

(** [df["timestamp"]] as a column of seconds. *)
Definition timestamps (df : DataFrame) : Series.t := map (fun s => Some (timestamp s)) df.

Definition set_distance (s : Sample) (d : option Q) : Sample :=
  mkSample (timestamp s) (latitude_deg s) (longitude_deg s) (altitude_m s)
           (speed_m_s s) d (heart_rate_bpm s) (cadence_rpm s) (power_w s)
           (temperature_c s).

Definition set_speed (s : Sample) (v : option Q) : Sample :=
  mkSample (timestamp s) (latitude_deg s) (longitude_deg s) (altitude_m s)
           v (distance_m s) (heart_rate_bpm s) (cadence_rpm s) (power_w s)
           (temperature_c s).

Definition set_altitude (s : Sample) (a : option Q) : Sample :=
  mkSample (timestamp s) (latitude_deg s) (longitude_deg s) a
           (speed_m_s s) (distance_m s) (heart_rate_bpm s) (cadence_rpm s)
           (power_w s) (temperature_c s).

(** [df[name] = column], the column as long as the frame. *)
Definition assign (set : Sample -> option Q -> Sample)
           (df : DataFrame) (column : Series.t) : DataFrame :=
  Series.map2 set df column.

(** ** Helper functions *)

(** What [data.get(name)] holds for a record message: nothing, a number, or
    a value that [float()] rejects. *)
Inductive field := Absent | Number (q : Q) | Junk.

(** [to_float], lines 35-41. *)
Definition to_float (v : field) : option Q :=
  match v with
  | Number q => Some q
  | Absent | Junk => None
  end.

Definition SEMICIRCLES_TO_DEGREES : Q := 180 / inject_Z (2 ^ 31).

(** [semicircles_to_deg], lines 44-48. *)
Definition semicircles_to_deg (val : field) : option Q :=
  match to_float val with
  | None => None
  | Some v => Some (v * SEMICIRCLES_TO_DEGREES)
  end.

(** What [df.at[i, name]] hands to Python: the object None in a column of
    dtype object, otherwise a double, NaN where the entry is missing. *)
Inductive cell := PyNone | NaN | Float (q : Q).

Definition at_ (column : Series.t) (i : nat) : cell :=
  if Series.is_object column then PyNone
  else match nth i column None with
       | Some q => Float q
       | None => NaN
       end.

Definition is_PyNone (c : cell) : bool :=
  match c with
  | PyNone => true
  | NaN | Float _ => false
  end.

(** [series.diff()] as [positive_gain] meets it: on a column of dtype object
    with two rows or more pandas subtracts None from None, which raises. *)
Definition column_diff (s : Series.t) : result Series.t :=
  if (Series.is_object s && (2 <=? length s)%nat)%bool
  then Raise TypeError
  else Ok (Series.diff s).

Definition or_zero_num (q : Q) : Q := if Qeq_bool q 0 then 0 else q.

(** [positive_gain], lines 61-65. *)
Definition positive_gain (series : Series.t) : result Q :=
  match series with
  | [] => Ok 0
  | _ =>
      diffs <- column_diff series ;;
      Ok (or_zero_num (Series.sum (Series.select diffs (Series.gt_scalar diffs 0))))
  end.

(** ** Record extractor *)

(** The fields of a decoded record message that the extractor reads. *)
Record message := mkMessage {
  msg_timestamp : Q;
  msg_position_lat : field;
  msg_position_long : field;
  msg_altitude : field;
  msg_speed : field;
  msg_distance : field;
  msg_heart_rate : field;
  msg_cadence : field;
  msg_power : field;
  msg_temperature : field
}.

(** The dictionary [rec] built for one message, lines 77-88. *)
Definition rec (data : message) : Sample :=
  {| timestamp := msg_timestamp data;
     latitude_deg := semicircles_to_deg (msg_position_lat data);
     longitude_deg := semicircles_to_deg (msg_position_long data);
     altitude_m := to_float (msg_altitude data);
     speed_m_s := to_float (msg_speed data);
     distance_m := to_float (msg_distance data);
     heart_rate_bpm := to_float (msg_heart_rate data);
     cadence_rpm := to_float (msg_cadence data);
     power_w := to_float (msg_power data);
     temperature_c := to_float (msg_temperature data) |}.

(** [df.sort_values("timestamp").reset_index(drop=True)]; rows with equal
    timestamps keep their order here. *)
Fixpoint insert_row (s : Sample) (df : DataFrame) : DataFrame :=
  match df with
  | [] => [s]
  | x :: r =>
      if Qle_bool (timestamp s) (timestamp x) then s :: x :: r
      else x :: insert_row s r
  end.

Definition sort_values (df : DataFrame) : DataFrame :=
  fold_right insert_row [] df.

(** [s.interpolate(limit_direction="both")]: linear in the row position
    between the nearest present neighbours, the nearest present value before
    the first and after the last one. *)
Fixpoint next_valid (s : Series.t) : option (Q * nat) :=
  match s with
  | [] => None
  | Some y :: _ => Some (y, O)
  | None :: r =>
      match next_valid r with
      | Some (y, j) => Some (y, S j)
      | None => None
      end
  end.

Fixpoint interpolate_from (prev : option (Q * nat)) (s : Series.t) : Series.t :=
  match s with
  | [] => []
  | Some y :: r => Some y :: interpolate_from (Some (y, 1%nat)) r
  | None :: r =>
      let filled :=
        match prev, next_valid r with
        | Some (a, k), Some (b, j) =>
            Some (a + (b - a) * inject_Z (Z.of_nat k)
                      / inject_Z (Z.of_nat (k + j + 1)))
        | Some (a, _), None => Some a
        | None, Some (b, _) => Some b
        | None, None => None
        end in
      filled :: interpolate_from
                  (match prev with
                   | Some (a, k) => Some (a, S k)
                   | None => None
                   end) r
  end.

Definition interpolate (s : Series.t) : Series.t := interpolate_from None s.

Section Extractor.

(** The great-circle distance [2*R*atan2(sqrt a, sqrt (1-a))] of
    [haversine_m] on four finite coordinates; sine, cosine and arc tangent
    are not rational, so the formula is a parameter. *)
Variable great_circle : Q -> Q -> Q -> Q -> Q.

(** [haversine_m], lines 51-58.
    [None in (...)] catches the object None only; a NaN coordinate goes
    through the formula and comes out as NaN. *)
Definition haversine_m (lat1 lon1 lat2 lon2 : cell) : option Q :=
  if existsb is_PyNone [lat1; lon1; lat2; lon2] then Some 0
  else match lat1, lon1, lat2, lon2 with
       | Float a, Float b, Float c, Float d => Some (great_circle a b c d)
       | _, _, _, _ => None
       end.

(** The loop [for i in range(1, len(df))] of lines 96-99, [last] being
    [dists[-1]]. *)
Fixpoint haversine_steps (lat lon : Series.t) (i steps : nat)
         (last : option Q) : Series.t :=
  match steps with
  | O => []
  | S k =>
      let d := haversine_m (at_ lat (i - 1)) (at_ lon (i - 1))
                           (at_ lat i) (at_ lon i) in
      let next := Series.lift2 Qplus last (or_zero d) in
      next :: haversine_steps lat lon (S i) k next
  end.

Definition reconstruct_distance (df : DataFrame) : Series.t :=
  Some 0 :: haversine_steps (col latitude_deg df) (col longitude_deg df)
                            1 (length df - 1) (Some 0).

(** The condition of line 94. *)
Definition distance_trigger (df : DataFrame) : bool :=
  Series.all (Series.isna (col distance_m df))
  || match or_zero (Series.max (col distance_m df)) with
     | Some m => Qeq_bool m 0
     | None => false
     end.

(** Lines 94-100. *)
Definition distance_pass (df : DataFrame) : DataFrame :=
  if distance_trigger df
  then assign set_distance df (reconstruct_distance df)
  else df.

(** The condition of line 102: [isna().mean() > 0.5]. *)
Definition speed_trigger (df : DataFrame) : bool :=
  negb (Qle_bool (Series.mask_mean (Series.isna (col speed_m_s df))) (1 # 2)).

(** Lines 103-106.  The distance column holds a value when this runs (else
    it was just rebuilt), so it is float64 and [diff] is the numeric one. *)
Definition reconstruct_speed (df : DataFrame) : Series.t :=
  let dt := Series.fillna 0 (Series.diff (timestamps df)) in
  let ds := Series.fillna 0 (Series.diff (col distance_m df)) in
  let dt_safe := Series.mask dt (Series.eq_scalar dt 0) in
  Series.fillna 0 (Series.div ds dt_safe).

(** Lines 102-107. *)
Definition speed_pass (df : DataFrame) : DataFrame :=
  if speed_trigger df
  then assign set_speed df (reconstruct_speed df)
  else df.

(** Lines 109-110. *)
Definition altitude_pass (df : DataFrame) : DataFrame :=
  if (5 <? Series.count (Series.notna (col altitude_m df)))%nat
  then assign set_altitude df (interpolate (col altitude_m df))
  else df.

(** The frame on which the speed pass runs. *)
Definition before_speed (messages : list message) : DataFrame :=
  distance_pass (sort_values (map rec messages)).

(** [parse_fit_records], lines 69-111, on the decoded record messages. *)
Definition parse_fit_records (messages : list message) : DataFrame :=
  let df := map rec messages in
  match df with
  | [] => df
  | _ => altitude_pass (speed_pass (distance_pass (sort_values df)))
  end.

End Extractor.

(** ** Work integrator *)

(** [integrate_work_joules], lines 124-131. *)
Definition integrate_work_joules (df : DataFrame) : Q :=
  if (match df with [] => true | _ => false end
      || (Series.count (Series.notna (col power_w df)) <? 2)%nat)%bool
  then 0
  else
    let power := Series.fillna 0 (col power_w df) in
    let dt := Series.fillna 0 (Series.diff (timestamps df)) in
    let p_prev := Series.fillna 0 (Series.shift power) in
    let work := Series.mul (Series.div_scalar (Series.add power p_prev) 2) dt in
    Series.sum work.

(** ** Metrics calculator *)

(** The values of the summary dictionary.  [VFloat None] is NaN;
    [VLocalTime t] is the instant [t] rendered in Europe/Berlin with
    [strftime("%Y-%m-%dT%H:%M:%S%z")], which is not modelled further. *)
#[warnings="-register-all"]
Inductive value :=
| VNull
| VFloat (x : option Q)
| VStr (s : string)
| VLocalTime (utc : Q)
| VDict (items : list (string * value)).

Definition Summary := list (string * value).

Fixpoint lookup (key : string) (d : Summary) : option value :=
  match d with
  | [] => None
  | (k, v) :: r => if String.eqb key k then Some v else lookup key r
  end.

(** What [parse_sessions_and_laps] returns; [compute_metrics] accepts it and
    does not read it. *)
Record AggregateBundle := mkAgg {
  sessions : list (list (string * field));
  laps : list (list (string * field))
}.

Definition LOCAL_TZ : string := "Europe/Berlin".

(** [round(x, n) if x is not None else None] *)
Definition round_opt (x : option Q) (ndigits : nat) : value :=
  match x with
  | Some q => VFloat (Some (py_round q ndigits))
  | None => VNull
  end.

(** [round(x, n) if x else None] *)
Definition round_if_truthy (x : option Q) (ndigits : nat) : value :=
  if truthy x then round_opt x ndigits else VNull.

(** An [Optional[float]] argument echoed into the summary. *)
Definition echo (x : option Q) : value :=
  match x with
  | Some q => VFloat (Some q)
  | None => VNull
  end.

(** [float(s.mean()) if s.notna().any() else None], and the same for max. *)
Definition mean_if_any (s : Series.t) : option Q :=
  if Series.any (Series.notna s) then Series.mean s else None.
Definition max_if_any (s : Series.t) : option Q :=
  if Series.any (Series.notna s) then Series.max s else None.

(** [moving_s], lines 146-147: the rows faster than 0.5 m/s are selected
    first, then their timestamps are differenced. *)
Definition moving_time (df : DataFrame) : Q :=
  let moving_mask := Series.gt_scalar (Series.fillna 0 (col speed_m_s df)) (1 # 2) in
  Series.sum (Series.fillna 0 (Series.diff (Series.select (timestamps df) moving_mask))).

(** [compute_metrics], lines 135-222: the call [compute_metrics(df, agg,
    wall_energy_kWh, eff_wall2batt_pct, muscle_eff_pct)] with every argument
    passed, as [main] does.  [hr_avg], [hr_max] and [temp_avg] are computed
    and not used, as in the source. *)
Definition compute_metrics (df : DataFrame) (agg : AggregateBundle)
           (wall_energy_kWh eff_wall2batt_pct muscle_eff_pct : option Q)
  : result Summary :=
  match df with
  | [] => Ok [("note", VStr "Keine 'record'-Daten gefunden.")]
  | first :: others =>
      let start_ts_utc :=
        fold_right (fun s m => Qmin (timestamp s) m) (timestamp first) others in
      let end_ts_utc :=
        fold_right (fun s m => Qmax (timestamp s) m) (timestamp first) others in
      let elapsed_s := end_ts_utc - start_ts_utc in
      let moving_s := moving_time df in
      let total_dist_m := or_zero (Series.max (col distance_m df)) in
      let avg_speed_m_s :=
        if negb (Qle_bool elapsed_s 0)
        then option_map (fun d => d / elapsed_s) total_dist_m
        else Some 0 in
      let max_speed_m_s := or_zero (Series.max (col speed_m_s df)) in
      ascent_m <- positive_gain (col altitude_m df) ;;
      let hr_avg := mean_if_any (col heart_rate_bpm df) in
      let hr_max := max_if_any (col heart_rate_bpm df) in
      let cad_avg := mean_if_any (col cadence_rpm df) in
      let cad_max := max_if_any (col cadence_rpm df) in
      let pwr_avg := mean_if_any (col power_w df) in
      let pwr_max := max_if_any (col power_w df) in
      let temp_avg := mean_if_any (col temperature_c df) in
      let rider_work_J := integrate_work_joules df in
      let rider_work_Wh := rider_work_J / 3600 in
      let motor_energy_Wh :=
        if (truthy wall_energy_kWh && truthy eff_wall2batt_pct)%bool
        then Series.lift2 (fun w e => w * 1000 * (e / 100))
                          wall_energy_kWh eff_wall2batt_pct
        else None in
      let total_work_Wh :=
        rider_work_Wh + (if truthy motor_energy_Wh
                         then match motor_energy_Wh with Some m => m | None => 0 end
                         else 0) in
      let total_work_J := total_work_Wh * 3600 in
      let calories_mech := rider_work_J / 4184 in
      let calories_food :=
        if truthy muscle_eff_pct
        then option_map (fun e => calories_mech / (e / 100)) muscle_eff_pct
        else None in
      let calories_range :=
        if truthy muscle_eff_pct
        then VDict [("20%", VFloat (Some (py_round (calories_mech / (20 # 100)) 1)));
                    ("25%", VFloat (Some (py_round (calories_mech / (25 # 100)) 1)))]
        else VNull in
      Ok [("start_time", VLocalTime start_ts_utc);
          ("end_time", VLocalTime end_ts_utc);
          ("timezone", VStr LOCAL_TZ);
          ("elapsed_time_s", VFloat (Some (py_round elapsed_s 1)));
          ("moving_time_s", VFloat (Some (py_round moving_s 1)));
          ("distance_m", VFloat (fround total_dist_m 1));
          ("avg_speed_kmh",
           VFloat (fround (option_map (fun v => v * (36 # 10)) avg_speed_m_s) 2));
          ("max_speed_kmh",
           VFloat (fround (option_map (fun v => v * (36 # 10)) max_speed_m_s) 2));
          ("elevation_gain_m", VFloat (Some (py_round ascent_m 1)));
          ("avg_cadence_rpm", round_opt cad_avg 1);
          ("max_cadence_rpm", round_opt cad_max 1);
          ("avg_power_w", round_opt pwr_avg 1);
          ("max_power_w", round_opt pwr_max 1);
          ("rider_work_Wh", VFloat (Some (py_round rider_work_Wh 2)));
          ("rider_work_J", VFloat (Some (py_round rider_work_J 1)));
          ("motor_energy_Wh", round_if_truthy motor_energy_Wh 2);
          ("total_work_Wh", VFloat (Some (py_round total_work_Wh 2)));
          ("total_work_J", VFloat (Some (py_round total_work_J 1)));
          ("calories_mechanical_kcal", VFloat (Some (py_round calories_mech 1)));
          ("calories_food_est_kcal", round_if_truthy calories_food 1);
          ("calories_food_est_range_kcal", calories_range);
          ("wall_energy_kWh_input", echo wall_energy_kWh);
          ("wall2battery_eff_pct_input", echo eff_wall2batt_pct);
          ("muscle_eff_pct_input", echo muscle_eff_pct)]
  end.

(** The default of the parameter [muscle_eff_pct], used when a call leaves
    the argument out. *)
Definition muscle_eff_pct_default : option Q := Some 24.

(** The sentinel returned for an empty frame. *)
Definition no_data : Summary := [("note", VStr "Keine 'record'-Daten gefunden.")].

(** ** The specification's formulas *)

(** Power with a missing value read as 0. *)
Definition power_or_zero (s : Sample) : Q :=
  match power_w s with
  | Some p => p
  | None => 0
  end.

(** The trapezoidal rule as the specification words it: over consecutive
    pairs, [((power[i] + power[i-1]) / 2) * dt]. *)
Fixpoint trapezoid_from (t_prev p_prev : Q) (rest : DataFrame) : Q :=
  match rest with
  | [] => 0
  | s :: r =>
      ((power_or_zero s + p_prev) / 2) * (timestamp s - t_prev)
      + trapezoid_from (timestamp s) (power_or_zero s) r
  end.

Definition trapezoid (df : DataFrame) : Q :=
  match df with
  | [] => 0
  | s :: r => trapezoid_from (timestamp s) (power_or_zero s) r
  end.

(** Number of samples with a power value. *)
Definition power_samples (df : DataFrame) : nat :=
  Series.count (Series.notna (col power_w df)).

(** Moving time as the specification words it: the time deltas of the
    consecutive pairs whose earlier sample is faster than 0.5 m/s. *)
Definition is_moving (s : Sample) : bool :=
  match speed_m_s s with
  | Some v => negb (Qle_bool v (1 # 2))
  | None => false
  end.

Fixpoint moving_time_spec (df : DataFrame) : Q :=
  match df with
  | [] => 0
  | s :: r =>
      match r with
      | [] => 0
      | s' :: _ =>
          (if is_moving s then timestamp s' - timestamp s else 0)
          + moving_time_spec r
      end
  end.

(** The time from the first sample faster than 0.5 m/s to the last one. *)
Definition moving_span (df : DataFrame) : Q :=
  match filter is_moving df with
  | [] => 0
  | s :: r => timestamp (last r s) - timestamp s
  end.

(** A column of doubles that never decreases and holds no NaN. *)
Fixpoint nondecreasing_from (prev : Q) (s : Series.t) : Prop :=
  match s with
  | [] => True
  | Some x :: r => prev <= x /\ nondecreasing_from x r
  | None :: _ => False
  end.

Definition starts_at_zero_nondecreasing (s : Series.t) : Prop :=
  match s with
  | Some x :: r => x == 0 /\ nondecreasing_from x r
  | _ => False
  end.

(** The keys of a full summary, in the order of the dictionary. *)
Definition summary_keys : list string :=
  ["start_time"; "end_time"; "timezone"; "elapsed_time_s"; "moving_time_s";
   "distance_m"; "avg_speed_kmh"; "max_speed_kmh"; "elevation_gain_m";
   "avg_cadence_rpm"; "max_cadence_rpm"; "avg_power_w"; "max_power_w";
   "rider_work_Wh"; "rider_work_J"; "motor_energy_Wh"; "total_work_Wh";
   "total_work_J"; "calories_mechanical_kcal"; "calories_food_est_kcal";
   "calories_food_est_range_kcal"; "wall_energy_kWh_input";
   "wall2battery_eff_pct_input"; "muscle_eff_pct_input"].

(** The summands of [integrate_work_joules] when the series continues after
    a sample with time [tp] and power [pp] ([None] before the first one). *)
Definition work_after (tp pp : option Q) (df : DataFrame) : Series.t :=
  let power := Series.fillna 0 (col power_w df) in
  Series.mul
    (Series.div_scalar
       (Series.add power (Series.fillna 0 (Series.shift_with pp power))) 2)
    (Series.fillna 0
       (Series.sub (timestamps df) (Series.shift_with tp (timestamps df)))).

(** Every power value that is present is non-negative. *)
Definition power_nonneg (df : DataFrame) : Prop :=
  forall s p, In s df -> power_w s = Some p -> 0 <= p.

(** Speed rebuilt from distance and time, as the specification words it:
    0 for the first sample; afterwards the distance delta over the time
    delta, and 0 when the time delta is 0.  A distance delta that involves a
    missing distance counts as 0. *)
Definition distance_delta (d d_prev : option Q) : Q :=
  match d, d_prev with
  | Some a, Some b => a - b
  | _, _ => 0
  end.

Definition derived_speed (t_prev : Q) (d_prev : option Q) (s : Sample) : Q :=
  if Qeq_bool (timestamp s - t_prev) 0 then 0
  else distance_delta (distance_m s) d_prev / (timestamp s - t_prev).

Fixpoint derived_speeds_from (t_prev : Q) (d_prev : option Q)
         (rest : DataFrame) : list Q :=
  match rest with
  | [] => []
  | s :: r =>
      derived_speed t_prev d_prev s
      :: derived_speeds_from (timestamp s) (distance_m s) r
  end.

Definition derived_speeds (df : DataFrame) : list Q :=
  match df with
  | [] => []
  | s :: r => 0 :: derived_speeds_from (timestamp s) (distance_m s) r
  end.

(** The summands of [reconstruct_speed] when the series continues after a
    sample with time [tp] and distance [dp]. *)
Definition speed_after (tp : option Q) (dp : option Q) (df : DataFrame)
  : Series.t :=
  let dt := Series.fillna 0
              (Series.sub (timestamps df) (Series.shift_with tp (timestamps df))) in
  let ds := Series.fillna 0
              (Series.sub (col distance_m df)
                          (Series.shift_with dp (col distance_m df))) in
  Series.fillna 0 (Series.div ds (Series.mask dt (Series.eq_scalar dt 0))).

(** More than half of the decoded records lack a usable speed value. *)
Definition speed_mostly_absent (messages : list message) : Prop :=
  (length messages
   < 2 * Series.count (Series.isna (map (fun m => to_float (msg_speed m)) messages)))%nat.

(** A record message with its speed field removed. *)
Definition clear_speed (m : message) : message :=
  mkMessage (msg_timestamp m) (msg_position_lat m) (msg_position_long m)
            (msg_altitude m) Absent (msg_distance m) (msg_heart_rate m)
            (msg_cadence m) (msg_power m) (msg_temperature m).

(** A sample with its speed value removed. *)
Definition without_speed (s : Sample) : Sample := set_speed s None.

(** The altitude column can be differenced: it holds a value, or the frame
    has fewer than two rows. *)
Definition altitude_usable (df : DataFrame) : Prop :=
  Series.is_object (col altitude_m df) = false \/ (length df < 2)%nat.

(** A column in which every record has a value, or none has. *)
Definition uniform (c : Series.t) : Prop :=
  (forall x, In x c -> x = None) \/ (forall x, In x c -> x <> None).

(** The reference range of food calories: the mechanical calories of the
    rider's work at 20 % and at 25 % efficiency, one decimal each. *)
Definition reference_range (df : DataFrame) : value :=
  let calories_mech := integrate_work_joules df / 4184 in
  VDict [("20%", VFloat (Some (py_round (calories_mech / (20 # 100)) 1)));
         ("25%", VFloat (Some (py_round (calories_mech / (25 # 100)) 1)))].

(** ** Example inputs *)

Definition no_agg : AggregateBundle := mkAgg [] [].

(** Two samples: t=0 s, 100 m, no power; t=10 s, 95 m, 200 W. *)
Definition scenario_two_samples : DataFrame :=
  [ mkSample 0 None None (Some 100) None None None None None None;
    mkSample 10 None None (Some 95) None None None None (Some 200) None ].

(** Two samples with heart rate and temperature. *)
Definition heart_rate_samples : DataFrame :=
  [ mkSample 0 None None (Some 100) (Some 5) (Some 0) (Some 120) None None (Some 20);
    mkSample 10 None None (Some 100) (Some 5) (Some 50) (Some 140) None None (Some 22) ].

(** Ride, stand still for two samples, ride on. *)
Definition stop_and_go : DataFrame :=
  [ mkSample 0 None None (Some 100) (Some 1) (Some 0) None None None None;
    mkSample 10 None None (Some 100) (Some 0) (Some 10) None None None None;
    mkSample 20 None None (Some 100) (Some 0) (Some 10) None None None None;
    mkSample 30 None None (Some 100) (Some 1) (Some 10) None None None None ].

(** Three samples with power, sorted by time. *)
Definition power_ride : DataFrame :=
  [ mkSample 0 None None (Some 100) None None None None (Some 100) None;
    mkSample 10 None None (Some 100) None None None None (Some 200) None;
    mkSample 20 None None (Some 100) None None None None None None ].

(** Two records without distance; the second has no position fix. *)
Definition gps_gap : list message :=
  [ mkMessage 0 (Number 572662306) (Number 131238445) Absent Absent Absent
              Absent Absent Absent Absent;
    mkMessage 1 Absent Absent Absent Absent Absent Absent Absent Absent Absent ].

(** Three records, two of them at the same second; one speed value only. *)
Definition sparse_speed : list message :=
  [ mkMessage 5 Absent Absent Absent (Number 3) (Number 40) Absent Absent Absent Absent;
    mkMessage 0 Absent Absent Absent Absent (Number 10) Absent Absent Absent Absent;
    mkMessage 5 Absent Absent Absent Absent (Number 60) Absent Absent Absent Absent ].

(** The same records with another speed value. *)
Definition sparse_speed' : list message :=
  [ mkMessage 5 Absent Absent Absent (Number 9) (Number 40) Absent Absent Absent Absent;
    mkMessage 0 Absent Absent Absent Absent (Number 10) Absent Absent Absent Absent;
    mkMessage 5 Absent Absent Absent Absent (Number 60) Absent Absent Absent Absent ].

(** Three records without distance, each with a position fix. *)
Definition gps_track : list message :=
  [ mkMessage 0 (Number 572662306) (Number 131238445) Absent Absent Absent
              Absent Absent Absent Absent;
    mkMessage 1 (Number 572674236) (Number 131238445) Absent Absent Absent
              Absent Absent Absent Absent;
    mkMessage 2 (Number 572674236) (Number 131250375) Absent Absent Absent
              Absent Absent Absent Absent ].

(** A rational stand-in for the great-circle formula, to run the extractor
    on examples: metres along the meridian plus metres along the parallel,
    111195 m to the degree. *)
Definition grid_metres (lat1 lon1 lat2 lon2 : Q) : Q :=
  (Qabs (lat2 - lat1) + Qabs (lon2 - lon1)) * 111195.



(** ** Further reference definitions *)

(** Altitude gained from one sample to the next: the rise when both values
    are present and the later one is higher, else 0. *)
Definition rise (prev x : option Q) : Q :=
  match x, prev with
  | Some a, Some b => if Qle_bool a b then 0 else a - b
  | _, _ => 0
  end.

Fixpoint climb_from (prev : option Q) (s : Series.t) : Q :=
  match s with
  | [] => 0
  | x :: r => rise prev x + climb_from x r
  end.

(** The sum of the rises over the consecutive pairs of a column. *)
Definition climb (s : Series.t) : Q := climb_from None s.

(** No present value is higher than a present value right before it. *)
Fixpoint never_rises_from (prev : option Q) (s : Series.t) : Prop :=
  match s with
  | [] => True
  | x :: r =>
      match x, prev with
      | Some a, Some b => a <= b
      | _, _ => True
      end /\ never_rises_from x r
  end.

(** The positive differences that [positive_gain] sums, the column
    continuing after the value [prev]. *)
Definition rises_after (prev : option Q) (s : Series.t) : Series.t :=
  let diffs := Series.sub s (Series.shift_with prev s) in
  Series.select diffs (Series.gt_scalar diffs 0).

(** The fields of a sample that no pass of the extractor assigns. *)
Definition untouched (s : Sample)
  : Q * option Q * option Q * option Q * option Q * option Q * option Q :=
  (timestamp s, latitude_deg s, longitude_deg s, heart_rate_bpm s,
   cadence_rpm s, power_w s, temperature_c s).

(** Number of record messages without a usable value in a field. *)
Definition absent_count (f : message -> field) (messages : list message) : nat :=
  Series.count (Series.isna (map (fun m => to_float (f m)) messages)).

Definition present_count (f : message -> field) (messages : list message) : nat :=
  Series.count (Series.notna (map (fun m => to_float (f m)) messages)).

(** Every present value of a column lies between [lo] and [hi]. *)
Definition within (lo hi : Q) (s : Series.t) : Prop :=
  forall x, In (Some x) s -> lo <= x <= hi.


(** The value of a column is missing everywhere. *)
Definition all_absent (s : Series.t) : Prop := forall x, In x s -> x = None.

(** Earliest and latest timestamp of a frame that starts with [first]. *)
Definition earliest (first : Sample) (others : DataFrame) : Q :=
  fold_right (fun s m => Qmin (timestamp s) m) (timestamp first) others.

Definition latest (first : Sample) (others : DataFrame) : Q :=
  fold_right (fun s m => Qmax (timestamp s) m) (timestamp first) others.

(** The order of two samples in time. *)
Definition by_time (a b : Sample) : Prop := timestamp a <= timestamp b.

(** ** Further example inputs *)

(** Up 10 m, a gap, up 15 m. *)
Definition mixed_profile : Series.t :=
  [Some 100; Some 110; None; Some 105; Some 120].

(** Down all the way, one value missing. *)
Definition descent_profile : Series.t :=
  [Some 100; Some 95; None; Some 95; Some 90].

(** The values of a climb after its start at 100 m. *)
Definition ascent_profile : list Q := [105; 105; 120].

(** Three records, two of them with a speed. *)
Definition dense_speed : list message :=
  [ mkMessage 0 Absent Absent Absent (Number 4) (Number 0) Absent Absent Absent Absent;
    mkMessage 1 Absent Absent Absent Absent (Number 4) Absent Absent Absent Absent;
    mkMessage 2 Absent Absent Absent (Number 6) (Number 9) Absent Absent Absent Absent ].

Definition with_altitude (t : Q) (alt : field) : message :=
  mkMessage t Absent Absent alt Absent Absent Absent Absent Absent Absent.

(** Four records, two of them with an altitude. *)
Definition few_altitudes : list message :=
  [ with_altitude 0 (Number 100); with_altitude 1 Absent;
    with_altitude 2 Absent; with_altitude 3 (Number 106) ].

(** Ten records, six of them with an altitude. *)
Definition altitude_gaps : list message :=
  [ with_altitude 0 Absent; with_altitude 1 (Number 100);
    with_altitude 2 (Number 104); with_altitude 3 Absent;
    with_altitude 4 Absent; with_altitude 5 (Number 110);
    with_altitude 6 (Number 130); with_altitude 7 (Number 120);
    with_altitude 8 (Number 118); with_altitude 9 Absent ].

(** Three records that carry a timestamp and nothing else. *)
Definition no_fix : list message :=
  [ with_altitude 0 Absent; with_altitude 1 Absent; with_altitude 2 Absent ].

(** A ride at 150 W. *)
Definition steady_first : Sample :=
  mkSample 0 None None (Some 100) None None None None (Some 150) None.

Definition steady_others : DataFrame :=
  [ mkSample 10 None None (Some 100) None None None None (Some 150) None;
    mkSample 25 None None (Some 100) None None None None (Some 150) None ].

(** A second sample at the time of [steady_first]. *)
Definition twin_others : DataFrame :=
  [ mkSample 0 None None (Some 100) None (Some 5) None None (Some 150) None ].

(** Three records with power and one altitude value. *)
Definition power_records : list message :=
  [ mkMessage 10 Absent Absent (Number 100) Absent Absent Absent Absent (Number 200) Absent;
    mkMessage 0 Absent Absent Absent Absent Absent Absent Absent (Number 100) Absent;
    mkMessage 20 Absent Absent Absent Absent Absent Absent Absent Absent Absent ].

(** Ride, stand still, ride on, as a first sample and the rest. *)
Definition stop_first : Sample :=
  mkSample 0 None None (Some 100) (Some 1) (Some 0) None None None None.

Definition stop_others : DataFrame :=
  [ mkSample 10 None None (Some 100) (Some 0) (Some 10) None None None None;
    mkSample 20 None None (Some 100) (Some 0) (Some 10) None None None None;
    mkSample 30 None None (Some 100) (Some 1) (Some 10) None None None None ].



(** * Properties *)

(** ** Work integrator *)

Lemma fillna_power_head (s : Sample) :
  (match power_w s with None => Some 0 | Some _ => power_w s end)
  = Some (power_or_zero s).
Proof. unfold power_or_zero. destruct (power_w s); reflexivity. Qed.

Ltac series_step :=
  cbn [map Series.fillna Series.shift_with Series.add Series.sub Series.mul
       Series.div Series.div_scalar Series.map2 Series.lift2 option_map].

Lemma work_after_cons (tp pp : Q) (s : Sample) (r : DataFrame) :
  work_after (Some tp) (Some pp) (s :: r) =
  Some ((power_or_zero s + pp) / 2 * (timestamp s - tp))
  :: work_after (Some (timestamp s)) (Some (power_or_zero s)) r.
Proof.
  unfold work_after, col, timestamps.
  series_step. rewrite fillna_power_head. series_step. reflexivity.
Qed.

Lemma work_after_first (s : Sample) (r : DataFrame) :
  work_after None None (s :: r) =
  Some ((power_or_zero s + 0) / 2 * 0)
  :: work_after (Some (timestamp s)) (Some (power_or_zero s)) r.
Proof.
  unfold work_after, col, timestamps.
  series_step. rewrite fillna_power_head. series_step. reflexivity.
Qed.

Lemma sum_work_after (r : DataFrame) : forall tp pp,
  Series.sum (work_after (Some tp) (Some pp) r) == trapezoid_from tp pp r.
Proof.
  induction r as [|s r IH]; intros tp pp.
  - reflexivity.
  - rewrite work_after_cons. cbn [Series.sum trapezoid_from].
    rewrite IH. reflexivity.
Qed.

Lemma integrate_work_joules_unfold (df : DataFrame) :
  integrate_work_joules df =
  if (power_samples df <? 2)%nat then 0
  else Series.sum (work_after None None df).
Proof.
  unfold integrate_work_joules, power_samples.
  destruct df as [|s r]; [reflexivity|].
  cbn [orb]. reflexivity.
Qed.

Lemma sum_work_trapezoid (df : DataFrame) :
  Series.sum (work_after None None df) == trapezoid df.
Proof.
  destruct df as [|s r]; [reflexivity|].
  rewrite work_after_first. cbn [Series.sum trapezoid].
  rewrite sum_work_after. field.
Qed.

(** C5: the work integrator returns 0 when fewer than two samples carry a
    power value, and otherwise the trapezoidal sum over consecutive pairs,
    a missing power counting as 0. *)
Theorem integrate_work_joules_trapezoid (df : DataFrame) :
  integrate_work_joules df ==
  if (power_samples df <? 2)%nat then 0 else trapezoid df.
Proof.
  rewrite integrate_work_joules_unfold.
  destruct (power_samples df <? 2)%nat; [reflexivity|].
  apply sum_work_trapezoid.
Qed.

Lemma power_or_zero_nonneg (df : DataFrame) (s : Sample) :
  power_nonneg df -> In s df -> 0 <= power_or_zero s.
Proof.
  intros H Hin. unfold power_or_zero.
  destruct (power_w s) as [p|] eqn:E; [apply (H s p Hin E) | apply Qle_refl].
Qed.

Lemma trapezoid_from_nonneg (r : DataFrame) : forall tp pp,
  0 <= pp ->
  Sorted Qle (tp :: map timestamp r) ->
  power_nonneg r ->
  0 <= trapezoid_from tp pp r.
Proof.
  induction r as [|s r IH]; intros tp pp Hpp Hs Hp.
  - apply Qle_refl.
  - cbn [trapezoid_from].
    cbn [map] in Hs. inversion Hs as [|a l Hs' Hhd]; subst.
    inversion Hhd as [|b l' Hle]; subst.
    assert (Hps : 0 <= power_or_zero s)
      by (apply (power_or_zero_nonneg (s :: r)); [exact Hp | left; reflexivity]).
    assert (IHr : 0 <= trapezoid_from (timestamp s) (power_or_zero s) r).
    { apply IH; [exact Hps | exact Hs' |].
      intros x p Hin. apply Hp. right. exact Hin. }
    assert (Hterm : 0 <= (power_or_zero s + pp) / 2 * (timestamp s - tp)).
    { apply Qmult_le_0_compat.
      - apply Qle_shift_div_l; [reflexivity | lra].
      - lra. }
    lra.
Qed.

(** C9: on a non-empty series sorted by timestamp whose present power values
    are all non-negative, the integrated work is non-negative. *)
Theorem integrate_work_joules_nonneg (df : DataFrame) :
  df <> [] ->
  Sorted Qle (map timestamp df) ->
  power_nonneg df ->
  0 <= integrate_work_joules df.
Proof.
  intros Hne Hs Hp.
  rewrite integrate_work_joules_unfold.
  destruct (power_samples df <? 2)%nat; [apply Qle_refl|].
  rewrite sum_work_trapezoid.
  destruct df as [|s r]; [congruence|].
  cbn [trapezoid]. apply trapezoid_from_nonneg.
  - apply (power_or_zero_nonneg (s :: r)); [exact Hp | left; reflexivity].
  - exact Hs.
  - intros x p Hin. apply Hp. right. exact Hin.
Qed.

Lemma integrate_work_joules_nonneg_witness :
  power_ride <> []
  /\ Sorted Qle (map timestamp power_ride)
  /\ power_nonneg power_ride
  /\ 0 <= integrate_work_joules power_ride.
Proof.
  assert (H1 : power_ride <> []) by discriminate.
  assert (H2 : Sorted Qle (map timestamp power_ride)).
  { cbn [power_ride map timestamp].
    repeat (constructor; try (unfold Qle; cbn; lia)). }
  assert (H3 : power_nonneg power_ride).
  { intros s p [<-|[<-|[<-|[]]]] E; cbn [power_w] in E;
      try discriminate; injection E as <-; unfold Qle; cbn; lia. }
  exact (conj H1 (conj H2 (conj H3
    (integrate_work_joules_nonneg power_ride H1 H2 H3)))).
Defined.

(** The same bound with the empty series included. *)
Lemma sorted_work_nonneg (df : DataFrame) :
  Sorted Qle (map timestamp df) ->
  power_nonneg df ->
  0 <= integrate_work_joules df.
Proof.
  intros Hs Hp.
  rewrite integrate_work_joules_unfold.
  destruct (power_samples df <? 2)%nat; [apply Qle_refl|].
  rewrite sum_work_trapezoid.
  destruct df as [|s r]; [apply Qle_refl|].
  cbn [trapezoid]. apply trapezoid_from_nonneg.
  - apply (power_or_zero_nonneg (s :: r)); [exact Hp | left; reflexivity].
  - exact Hs.
  - intros x p Hin. apply Hp. right. exact Hin.
Qed.

(** ** Sorting *)

Lemma insert_row_perm (s : Sample) (df : DataFrame) :
  Permutation (s :: df) (insert_row s df).
Proof.
  induction df as [|x r IH]; cbn [insert_row].
  - apply Permutation_refl.
  - destruct (Qle_bool (timestamp s) (timestamp x)).
    + apply Permutation_refl.
    + apply perm_trans with (x :: s :: r); [apply perm_swap|].
      apply perm_skip. exact IH.
Qed.

Lemma sort_values_perm (df : DataFrame) : Permutation df (sort_values df).
Proof.
  induction df as [|s r IH]; cbn [sort_values fold_right].
  - apply perm_nil.
  - apply perm_trans with (s :: sort_values r).
    + apply perm_skip. exact IH.
    + apply insert_row_perm.
Qed.

Lemma sort_values_length (df : DataFrame) : length (sort_values df) = length df.
Proof. symmetry. apply Permutation_length, sort_values_perm. Qed.

Lemma insert_row_sorted (s : Sample) (df : DataFrame) :
  Sorted Qle (map timestamp df) -> Sorted Qle (map timestamp (insert_row s df)).
Proof.
  induction df as [|x r IH]; intros Hs; cbn [insert_row map].
  - repeat constructor.
  - destruct (Qle_bool (timestamp s) (timestamp x)) eqn:E.
    + cbn [map]. constructor; [exact Hs|].
      constructor. apply Qle_bool_iff. exact E.
    + cbn [map] in *. inversion Hs as [|a l Hr Hhd]; subst.
      constructor; [apply IH; exact Hr|].
      assert (Hlt : timestamp x <= timestamp s).
      { apply Qlt_le_weak. apply Qnot_le_lt. intros H.
        apply Qle_bool_iff in H. congruence. }
      destruct r as [|y r']; cbn [insert_row map].
      * constructor. exact Hlt.
      * destruct (Qle_bool (timestamp s) (timestamp y)); cbn [map].
        -- constructor. exact Hlt.
        -- inversion Hhd; subst. constructor. assumption.
Qed.

Lemma sort_values_sorted (df : DataFrame) :
  Sorted Qle (map timestamp (sort_values df)).
Proof.
  induction df as [|s r IH]; cbn [sort_values fold_right].
  - constructor.
  - apply insert_row_sorted. exact IH.
Qed.

Lemma insert_row_map (f : Sample -> Sample) (s : Sample) (df : DataFrame) :
  (forall x, timestamp (f x) = timestamp x) ->
  map f (insert_row s df) = insert_row (f s) (map f df).
Proof.
  intros Hf. induction df as [|x r IH]; cbn [insert_row map].
  - reflexivity.
  - rewrite !Hf. destruct (Qle_bool (timestamp s) (timestamp x)); cbn [map].
    + reflexivity.
    + rewrite IH. reflexivity.
Qed.

Lemma sort_values_map (f : Sample -> Sample) (df : DataFrame) :
  (forall x, timestamp (f x) = timestamp x) ->
  map f (sort_values df) = sort_values (map f df).
Proof.
  intros Hf. induction df as [|s r IH]; cbn [sort_values fold_right map].
  - reflexivity.
  - fold (sort_values r). fold (sort_values (map f r)).
    rewrite insert_row_map by exact Hf. rewrite IH. reflexivity.
Qed.

Lemma sort_values_nonempty (df : DataFrame) : df <> [] -> sort_values df <> [].
Proof.
  intros H E. apply H. apply length_zero_iff_nil.
  rewrite <- sort_values_length, E. reflexivity.
Qed.

(** ** Assigning a column *)

Lemma map_assign_other {A} (g : Sample -> A) (set : Sample -> option Q -> Sample)
      (df : DataFrame) : forall (c : Series.t),
  (forall s v, g (set s v) = g s) ->
  length c = length df ->
  map g (assign set df c) = map g df.
Proof.
  unfold assign. induction df as [|s r IH]; intros [|v c] Hg H;
    cbn [Series.map2 map length] in *; try reflexivity; try discriminate.
  rewrite Hg. f_equal. apply IH; [exact Hg | congruence].
Qed.

Lemma map_assign_same (g : Sample -> option Q) (set : Sample -> option Q -> Sample)
      (df : DataFrame) : forall (c : Series.t),
  (forall s v, g (set s v) = v) ->
  length c = length df ->
  map g (assign set df c) = c.
Proof.
  unfold assign. induction df as [|s r IH]; intros [|v c] Hg H;
    cbn [Series.map2 map length] in *; try reflexivity; try discriminate.
  rewrite Hg. f_equal. apply IH; [exact Hg | congruence].
Qed.

(** ** Speed reconstruction *)

Ltac speed_step :=
  cbn [map Series.fillna Series.shift_with Series.sub Series.div Series.mask
       Series.eq_scalar Series.map2 Series.lift2].

Lemma speed_after_cons (tp : Q) (dp : option Q) (s : Sample) (r : DataFrame) :
  speed_after (Some tp) dp (s :: r) =
  Some (derived_speed tp dp s)
  :: speed_after (Some (timestamp s)) (distance_m s) r.
Proof.
  unfold speed_after, derived_speed, distance_delta, col, timestamps.
  speed_step. f_equal.
  destruct (Qeq_bool (timestamp s - tp) 0);
    destruct (distance_m s); destruct dp; reflexivity.
Qed.

Lemma speed_after_first (s : Sample) (r : DataFrame) :
  speed_after None None (s :: r) =
  Some 0 :: speed_after (Some (timestamp s)) (distance_m s) r.
Proof.
  unfold speed_after, col, timestamps.
  speed_step. f_equal.
  destruct (distance_m s); reflexivity.
Qed.

Lemma speed_after_derived (r : DataFrame) : forall tp dp,
  speed_after (Some tp) dp r = map Some (derived_speeds_from tp dp r).
Proof.
  induction r as [|s r IH]; intros tp dp.
  - reflexivity.
  - rewrite speed_after_cons. cbn [derived_speeds_from map].
    rewrite IH. reflexivity.
Qed.

Lemma reconstruct_speed_derived (df : DataFrame) :
  reconstruct_speed df = map Some (derived_speeds df).
Proof.
  change (reconstruct_speed df) with (speed_after None None df).
  destruct df as [|s r]; [reflexivity|].
  rewrite speed_after_first, speed_after_derived. reflexivity.
Qed.

Lemma derived_speeds_length (df : DataFrame) :
  length (derived_speeds df) = length df.
Proof.
  destruct df as [|s r]; [reflexivity|]. cbn [derived_speeds length]. f_equal.
  generalize (timestamp s) (distance_m s).
  induction r as [|x r IH]; intros t d; cbn [derived_speeds_from length].
  - reflexivity.
  - f_equal. apply IH.
Qed.

Lemma reconstruct_speed_length (df : DataFrame) :
  length (reconstruct_speed df) = length df.
Proof.
  rewrite reconstruct_speed_derived, length_map. apply derived_speeds_length.
Qed.

(** Two consecutive rows with one timestamp: the later one gets speed 0. *)
Lemma derived_speeds_from_same_time (r : DataFrame) : forall tp dp i s0 s1,
  nth_error r i = Some s0 ->
  nth_error r (S i) = Some s1 ->
  timestamp s1 == timestamp s0 ->
  nth_error (derived_speeds_from tp dp r) (S i) = Some 0.
Proof.
  induction r as [|x r IH]; intros tp dp i s0 s1 H0 H1 Ht.
  - destruct i; discriminate.
  - destruct i as [|i].
    + cbn [nth_error] in H0, H1. injection H0 as ->.
      destruct r as [|y r']; [discriminate|].
      cbn [nth_error] in H1. injection H1 as ->.
      cbn [derived_speeds_from nth_error]. unfold derived_speed.
      assert (E : Qeq_bool (timestamp s1 - timestamp s0) 0 = true).
      { apply Qeq_bool_iff. rewrite Ht. ring. }
      rewrite E. reflexivity.
    + cbn [nth_error] in H0, H1. cbn [derived_speeds_from nth_error].
      apply (IH _ _ i s0 s1 H0 H1 Ht).
Qed.

Lemma derived_speeds_same_time (df : DataFrame) (i : nat) (s0 s1 : Sample) :
  nth_error df i = Some s0 ->
  nth_error df (S i) = Some s1 ->
  timestamp s1 == timestamp s0 ->
  nth_error (derived_speeds df) (S i) = Some 0.
Proof.
  intros H0 H1 Ht. destruct df as [|x r]; [destruct i; discriminate|].
  cbn [derived_speeds]. destruct i as [|i].
  - cbn [nth_error] in H0. injection H0 as ->.
    destruct r as [|y r']; [discriminate|].
    cbn [nth_error] in H1. injection H1 as ->.
    cbn [derived_speeds_from nth_error]. unfold derived_speed.
    assert (E : Qeq_bool (timestamp s1 - timestamp s0) 0 = true).
    { apply Qeq_bool_iff. rewrite Ht. ring. }
    rewrite E. reflexivity.
  - cbn [nth_error] in H0, H1. cbn [nth_error].
    apply (derived_speeds_from_same_time r _ _ i s0 s1 H0 H1 Ht).
Qed.

(** The rebuilt speeds read timestamps and distances only. *)
Lemma derived_speeds_from_ext (r r' : DataFrame) : forall tp dp,
  map timestamp r = map timestamp r' ->
  map distance_m r = map distance_m r' ->
  derived_speeds_from tp dp r = derived_speeds_from tp dp r'.
Proof.
  revert r'. induction r as [|s r IH]; intros [|s' r'] tp dp Ht Hd;
    cbn [map] in *; try discriminate; [reflexivity|].
  injection Ht as Ht0 Ht. injection Hd as Hd0 Hd.
  cbn [derived_speeds_from]. unfold derived_speed.
  rewrite Ht0, Hd0. f_equal. apply IH; assumption.
Qed.

Lemma derived_speeds_ext (df df' : DataFrame) :
  map timestamp df = map timestamp df' ->
  map distance_m df = map distance_m df' ->
  derived_speeds df = derived_speeds df'.
Proof.
  destruct df as [|s r]; destruct df' as [|s' r']; cbn [map];
    intros Ht Hd; try discriminate; [reflexivity|].
  injection Ht as Ht0 Ht. injection Hd as Hd0 Hd.
  cbn [derived_speeds]. rewrite Ht0, Hd0. f_equal.
  apply derived_speeds_from_ext; assumption.
Qed.

(** ** The trigger of the speed pass *)

Lemma count_perm {A} (g : A -> bool) (l l' : list A) :
  Permutation l l' -> Series.count (map g l) = Series.count (map g l').
Proof.
  unfold Series.count.
  induction 1 as [|x l l' _ IH|x y l|l l' l'' _ IH1 _ IH2]; cbn [map filter].
  - reflexivity.
  - destruct (g x); cbn [length]; congruence.
  - destruct (g x), (g y); reflexivity.
  - congruence.
Qed.

Lemma count_le_length (m : list bool) : (Series.count m <= length m)%nat.
Proof. unfold Series.count. apply filter_length_le. Qed.

Lemma mask_mean_half (m : list bool) :
  negb (Qle_bool (Series.mask_mean m) (1 # 2)) = true
  <-> (length m < 2 * Series.count m)%nat.
Proof.
  unfold Series.mask_mean.
  pose proof (count_le_length m) as Hc.
  set (c := Series.count m) in *. set (n := length m) in *.
  rewrite negb_true_iff, <- not_true_iff_false, Qle_bool_iff.
  destruct n as [|n].
  - assert (c = 0)%nat by lia. subst c. rewrite H.
    split; [intros Hn; exfalso; apply Hn; discriminate | lia].
  - set (x := inject_Z (Z.of_nat c)). set (y := inject_Z (Z.of_nat (S n))).
    assert (Hy : 0 < y).
    { unfold y. change 0 with (inject_Z 0). rewrite <- Zlt_Qlt. lia. }
    assert (Hxy : x / y * y == x) by (field; lra).
    assert (Hiff : x / y <= 1 # 2 <-> 2 * x <= y) by (split; intros; nra).
    rewrite Hiff. unfold x, y.
    change 2 with (inject_Z 2). rewrite <- inject_Z_mult, <- Zle_Qle.
    lia.
Qed.

(** ** The passes of the extractor *)

Lemma interpolate_from_length (s : Series.t) : forall prev,
  length (interpolate_from prev s) = length s.
Proof.
  induction s as [|x s IH]; intros prev; [reflexivity|].
  destruct x; cbn [interpolate_from length]; f_equal; apply IH.
Qed.

Section ExtractorFacts.

Variable great_circle : Q -> Q -> Q -> Q -> Q.

Lemma haversine_steps_length (lat lon : Series.t) (steps : nat) : forall i last,
  length (haversine_steps great_circle lat lon i steps last) = steps.
Proof.
  induction steps as [|k IH]; intros i last; cbn [haversine_steps length].
  - reflexivity.
  - f_equal. apply IH.
Qed.

Lemma reconstruct_distance_length (df : DataFrame) :
  df <> [] -> length (reconstruct_distance great_circle df) = length df.
Proof.
  intros H. unfold reconstruct_distance. cbn [length].
  rewrite haversine_steps_length.
  destruct df; [congruence | cbn [length]; lia].
Qed.

(** A column that a pass does not assign is left as it was. *)
Lemma distance_pass_other {A} (g : Sample -> A) (df : DataFrame) :
  (forall s v, g (set_distance s v) = g s) ->
  df <> [] ->
  map g (distance_pass great_circle df) = map g df.
Proof.
  intros Hg Hne. unfold distance_pass.
  destruct (distance_trigger df); [|reflexivity].
  apply map_assign_other; [exact Hg | apply reconstruct_distance_length, Hne].
Qed.

Lemma speed_pass_other {A} (g : Sample -> A) (df : DataFrame) :
  (forall s v, g (set_speed s v) = g s) ->
  map g (speed_pass df) = map g df.
Proof.
  intros Hg. unfold speed_pass.
  destruct (speed_trigger df); [|reflexivity].
  apply map_assign_other; [exact Hg | apply reconstruct_speed_length].
Qed.

Lemma altitude_pass_other {A} (g : Sample -> A) (df : DataFrame) :
  (forall s v, g (set_altitude s v) = g s) ->
  map g (altitude_pass df) = map g df.
Proof.
  intros Hg. unfold altitude_pass.
  destruct (5 <? _)%nat; [|reflexivity].
  apply map_assign_other; [exact Hg|].
  unfold interpolate. rewrite interpolate_from_length.
  unfold col. apply length_map.
Qed.

Lemma speed_pass_fired (df : DataFrame) :
  speed_trigger df = true ->
  col speed_m_s (speed_pass df) = map Some (derived_speeds df).
Proof.
  intros H. unfold speed_pass, col. rewrite H.
  rewrite map_assign_same;
    [apply reconstruct_speed_derived | reflexivity | apply reconstruct_speed_length].
Qed.

Lemma distance_pass_nonempty (df : DataFrame) :
  df <> [] -> distance_pass great_circle df <> [].
Proof.
  intros H E. apply H. apply (f_equal (map timestamp)) in E.
  rewrite distance_pass_other in E by (reflexivity || exact H).
  destruct df; [reflexivity | discriminate].
Qed.

(** The pipeline on a non-empty input. *)
Lemma parse_fit_records_unfold (messages : list message) :
  messages <> [] ->
  parse_fit_records great_circle messages =
  altitude_pass
    (speed_pass (distance_pass great_circle (sort_values (map rec messages)))).
Proof.
  intros H. unfold parse_fit_records.
  destruct messages; [congruence | reflexivity].
Qed.

Lemma parse_fit_records_timestamps (messages : list message) :
  map timestamp (parse_fit_records great_circle messages)
  = map timestamp (sort_values (map rec messages)).
Proof.
  destruct messages as [|m ms]; [reflexivity|].
  rewrite parse_fit_records_unfold by discriminate.
  rewrite altitude_pass_other, speed_pass_other by reflexivity.
  apply distance_pass_other; [reflexivity|].
  apply sort_values_nonempty. discriminate.
Qed.

(** The extractor hands on a series sorted by timestamp. *)
Lemma parse_fit_records_sorted (messages : list message) :
  Sorted Qle (map timestamp (parse_fit_records great_circle messages)).
Proof. rewrite parse_fit_records_timestamps. apply sort_values_sorted. Qed.

(** Its work is non-negative when no record has a negative power. *)
Lemma parse_fit_records_work_nonneg (messages : list message) :
  (forall m p, In m messages -> to_float (msg_power m) = Some p -> 0 <= p) ->
  0 <= integrate_work_joules (parse_fit_records great_circle messages).
Proof.
  intros H. apply sorted_work_nonneg; [apply parse_fit_records_sorted|].
  destruct messages as [|m0 ms]; [intros s p []|].
  intros s p Hin Hp.
  apply (in_map power_w) in Hin.
  rewrite parse_fit_records_unfold in Hin by discriminate.
  rewrite altitude_pass_other, speed_pass_other in Hin by reflexivity.
  rewrite distance_pass_other in Hin
    by (reflexivity || (apply sort_values_nonempty; discriminate)).
  apply in_map_iff in Hin. destruct Hin as [s' [Hs' Hin]].
  apply (Permutation_in _ (Permutation_sym (sort_values_perm _))) in Hin.
  apply in_map_iff in Hin. destruct Hin as [m [<- Hm]].
  apply (H m p Hm). cbn [rec power_w] in Hs'. congruence.
Qed.

(** The trigger of the speed pass, read on the decoded input. *)
Lemma speed_trigger_input (messages : list message) :
  messages <> [] ->
  speed_trigger (distance_pass great_circle (sort_values (map rec messages))) = true
  <-> speed_mostly_absent messages.
Proof.
  intros Hne. unfold speed_trigger, speed_mostly_absent.
  rewrite mask_mean_half. unfold Series.isna, col.
  rewrite distance_pass_other
    by (reflexivity || (apply sort_values_nonempty; destruct messages; [congruence | discriminate])).
  rewrite length_map, 2!map_map.
  rewrite <- (count_perm (fun x => Series.is_na (speed_m_s x)) _ _
                (sort_values_perm (map rec messages))).
  rewrite ?length_map, sort_values_length, ?length_map, ?map_map.
  reflexivity.
Qed.

Lemma parse_fit_records_speed (messages : list message) :
  messages <> [] ->
  speed_mostly_absent messages ->
  col speed_m_s (parse_fit_records great_circle messages)
  = map Some (derived_speeds
                (distance_pass great_circle (sort_values (map rec messages)))).
Proof.
  intros Hne Hs. rewrite parse_fit_records_unfold by exact Hne.
  unfold col at 1. rewrite altitude_pass_other by reflexivity.
  apply speed_pass_fired. apply speed_trigger_input; assumption.
Qed.

End ExtractorFacts.

(** ** Speed reconstruction on the extractor's output *)

Lemma map_assign_commute (f : Sample -> Sample)
      (set : Sample -> option Q -> Sample) (df : DataFrame) : forall c,
  (forall s v, f (set s v) = set (f s) v) ->
  map f (assign set df c) = assign set (map f df) c.
Proof.
  unfold assign. induction df as [|s r IH]; intros [|v c] Hf;
    cbn [Series.map2 map]; try reflexivity.
  rewrite Hf, IH by exact Hf. reflexivity.
Qed.

Lemma sorted_records_nonempty (messages : list message) :
  messages <> [] -> sort_values (map rec messages) <> [].
Proof.
  intros H. apply sort_values_nonempty.
  destruct messages; [congruence | discriminate].
Qed.

Section SpeedFacts.

Variable great_circle : Q -> Q -> Q -> Q -> Q.

Lemma distance_pass_without_speed (df : DataFrame) :
  map without_speed (distance_pass great_circle df)
  = distance_pass great_circle (map without_speed df).
Proof.
  unfold distance_pass, distance_trigger, reconstruct_distance, col.
  rewrite !map_map, length_map. cbn [without_speed set_speed distance_m
    latitude_deg longitude_deg].
  destruct (_ || _)%bool; [|reflexivity].
  apply map_assign_commute. reflexivity.
Qed.

Lemma before_speed_clear (messages : list message) :
  map without_speed (before_speed great_circle messages)
  = before_speed great_circle (map clear_speed messages).
Proof.
  unfold before_speed.
  rewrite distance_pass_without_speed, sort_values_map by reflexivity.
  rewrite !map_map. reflexivity.
Qed.

Lemma derived_speeds_clear (messages : list message) :
  derived_speeds (before_speed great_circle messages)
  = derived_speeds (before_speed great_circle (map clear_speed messages)).
Proof.
  rewrite <- before_speed_clear.
  apply derived_speeds_ext; rewrite map_map; reflexivity.
Qed.

(** C7: when more than half of the speed values of a non-empty input are
    missing, the speed pass runs, no sample of the result lacks a speed,
    and a sample whose timestamp equals that of the sample before it has
    speed 0. *)
Theorem speed_reconstruction_leaves_no_gap (messages : list message) :
  messages <> [] ->
  speed_mostly_absent messages ->
  let df := parse_fit_records great_circle messages in
  speed_trigger (before_speed great_circle messages) = true
  /\ (forall s, In s df -> speed_m_s s <> None)
  /\ (forall i s0 s1,
         nth_error df i = Some s0 ->
         nth_error df (S i) = Some s1 ->
         timestamp s1 == timestamp s0 ->
         speed_m_s s1 = Some 0).
Proof.
  intros Hne Hs df.
  pose proof (parse_fit_records_speed great_circle messages Hne Hs) as Hcol.
  fold df in Hcol. unfold col in Hcol.
  split; [apply speed_trigger_input; assumption|]. split.
  - intros s Hin E.
    apply (in_map speed_m_s) in Hin. rewrite Hcol, E in Hin.
    apply in_map_iff in Hin. destruct Hin as [q [Hq _]]. discriminate.
  - intros i s0 s1 H0 H1 Ht.
    pose proof (parse_fit_records_timestamps great_circle messages) as Hts.
    fold df in Hts.
    rewrite <- (distance_pass_other great_circle timestamp _
                  (fun _ _ => eq_refl) (sorted_records_nonempty messages Hne))
      in Hts.
    set (df1 := distance_pass great_circle (sort_values (map rec messages))) in *.
    assert (T0 : nth_error (map timestamp df1) i = Some (timestamp s0))
      by (rewrite <- Hts, nth_error_map, H0; reflexivity).
    assert (T1 : nth_error (map timestamp df1) (S i) = Some (timestamp s1))
      by (rewrite <- Hts, nth_error_map, H1; reflexivity).
    rewrite nth_error_map in T0, T1.
    destruct (nth_error df1 i) as [r0|] eqn:R0; [|discriminate].
    destruct (nth_error df1 (S i)) as [r1|] eqn:R1; [|discriminate].
    injection T0 as T0. injection T1 as T1.
    assert (Hd : nth_error (derived_speeds df1) (S i) = Some 0).
    { apply (derived_speeds_same_time df1 i r0 r1 R0 R1).
      rewrite T0, T1. exact Ht. }
    assert (Hv : nth_error (map speed_m_s df) (S i) = Some (speed_m_s s1))
      by (rewrite nth_error_map, H1; reflexivity).
    rewrite Hcol, nth_error_map, Hd in Hv. cbn [option_map] in Hv.
    congruence.
Qed.

(** C10: when the speed pass runs, the whole speed column becomes the
    derived one: it is the same whatever speed values the records
    carried, and the first sample's speed is 0. *)
Theorem speed_column_replaced (messages messages' : list message) :
  messages <> [] ->
  speed_mostly_absent messages ->
  speed_mostly_absent messages' ->
  map clear_speed messages = map clear_speed messages' ->
  let df := parse_fit_records great_circle messages in
  col speed_m_s df
  = map Some (derived_speeds (before_speed great_circle messages))
  /\ col speed_m_s df = col speed_m_s (parse_fit_records great_circle messages')
  /\ nth_error (col speed_m_s df) 0 = Some (Some 0).
Proof.
  intros Hne Hs Hs' Hsame df.
  assert (Hne' : messages' <> []).
  { intros E. rewrite E in Hsame. destruct messages; [congruence | discriminate]. }
  pose proof (parse_fit_records_speed great_circle messages Hne Hs) as Hcol.
  pose proof (parse_fit_records_speed great_circle messages' Hne' Hs') as Hcol'.
  fold (before_speed great_circle messages) in Hcol.
  fold (before_speed great_circle messages') in Hcol'.
  fold df in Hcol. split; [exact Hcol|]. split.
  - rewrite Hcol, Hcol'.
    rewrite (derived_speeds_clear messages), (derived_speeds_clear messages').
    rewrite Hsame. reflexivity.
  - rewrite Hcol.
    assert (Hb : before_speed great_circle messages <> []).
    { apply distance_pass_nonempty, sorted_records_nonempty, Hne. }
    destruct (before_speed great_circle messages);
      [congruence | reflexivity].
Qed.

End SpeedFacts.

Lemma speed_reconstruction_leaves_no_gap_witness :
  sparse_speed <> []
  /\ speed_mostly_absent sparse_speed
  /\ (let df := parse_fit_records grid_metres sparse_speed in
      speed_trigger (before_speed grid_metres sparse_speed) = true
      /\ (forall s, In s df -> speed_m_s s <> None)
      /\ (forall i s0 s1,
             nth_error df i = Some s0 ->
             nth_error df (S i) = Some s1 ->
             timestamp s1 == timestamp s0 ->
             speed_m_s s1 = Some 0)).
Proof.
  assert (H1 : sparse_speed <> []) by discriminate.
  assert (H2 : speed_mostly_absent sparse_speed)
    by (unfold speed_mostly_absent; cbn; lia).
  exact (conj H1 (conj H2
    (speed_reconstruction_leaves_no_gap grid_metres sparse_speed H1 H2))).
Defined.

Lemma speed_column_replaced_witness :
  sparse_speed <> []
  /\ speed_mostly_absent sparse_speed
  /\ speed_mostly_absent sparse_speed'
  /\ map clear_speed sparse_speed = map clear_speed sparse_speed'
  /\ (let df := parse_fit_records grid_metres sparse_speed in
      col speed_m_s df
      = map Some (derived_speeds (before_speed grid_metres sparse_speed))
      /\ col speed_m_s df = col speed_m_s (parse_fit_records grid_metres sparse_speed')
      /\ nth_error (col speed_m_s df) 0 = Some (Some 0)).
Proof.
  assert (H1 : sparse_speed <> []) by discriminate.
  assert (H2 : speed_mostly_absent sparse_speed)
    by (unfold speed_mostly_absent; cbn; lia).
  assert (H3 : speed_mostly_absent sparse_speed')
    by (unfold speed_mostly_absent; cbn; lia).
  assert (H4 : map clear_speed sparse_speed = map clear_speed sparse_speed')
    by reflexivity.
  exact (conj H1 (conj H2 (conj H3 (conj H4
    (speed_column_replaced grid_metres sparse_speed sparse_speed' H1 H2 H3 H4))))).
Defined.

(** ** Distance reconstruction with complete coordinates *)

Lemma is_object_iff (c : Series.t) :
  Series.is_object c = true <-> (forall x, In x c -> x = None).
Proof.
  unfold Series.is_object, Series.all, Series.isna.
  rewrite forallb_forall. split.
  - intros H x Hin. specialize (H (Series.is_na x) (in_map _ _ _ Hin)).
    destruct x; [discriminate | reflexivity].
  - intros H b Hb. apply in_map_iff in Hb. destruct Hb as [x [<- Hin]].
    rewrite (H x Hin). reflexivity.
Qed.

Lemma at_uniform (c : Series.t) (i : nat) :
  uniform c -> (i < length c)%nat -> at_ c i <> NaN.
Proof.
  intros Hu Hi. unfold at_.
  destruct (Series.is_object c) eqn:Ho; [discriminate|].
  destruct Hu as [Hu|Hu].
  - apply is_object_iff in Hu. congruence.
  - specialize (Hu (nth i c None) (nth_In c None Hi)).
    destruct (nth i c None); [discriminate | congruence].
Qed.

Lemma uniform_perm {A} (f : A -> option Q) (l l' : list A) :
  Permutation l l' -> uniform (map f l) -> uniform (map f l').
Proof.
  intros Hp [H|H]; [left | right]; intros x Hin;
    apply in_map_iff in Hin; destruct Hin as [a [<- Ha]];
    apply H, in_map, (Permutation_in _ (Permutation_sym Hp)), Ha.
Qed.

Section DistanceFacts.

Variable great_circle : Q -> Q -> Q -> Q -> Q.
Hypothesis great_circle_nonneg : forall a b c d, 0 <= great_circle a b c d.

Lemma haversine_m_nonneg (lat1 lon1 lat2 lon2 : cell) :
  lat1 <> NaN -> lon1 <> NaN -> lat2 <> NaN -> lon2 <> NaN ->
  exists x, or_zero (haversine_m great_circle lat1 lon1 lat2 lon2) = Some x
            /\ 0 <= x.
Proof.
  intros H1 H2 H3 H4. unfold haversine_m.
  destruct lat1, lon1, lat2, lon2; try congruence;
    cbn [existsb is_PyNone orb or_zero];
    try (exists 0; split; [reflexivity | apply Qle_refl]).
  destruct (Qeq_bool (great_circle q q0 q1 q2) 0).
  - exists 0. split; [reflexivity | apply Qle_refl].
  - eexists. split; [reflexivity | apply great_circle_nonneg].
Qed.

Lemma haversine_steps_nondecreasing (lat lon : Series.t) :
  uniform lat -> uniform lon -> length lon = length lat ->
  forall steps i last,
    (1 <= i)%nat -> (i + steps = length lat)%nat ->
    nondecreasing_from last
      (haversine_steps great_circle lat lon i steps (Some last)).
Proof.
  intros Hlat Hlon Hlen. induction steps as [|k IH]; intros i last Hi Hn.
  - exact I.
  - cbn [haversine_steps].
    destruct (haversine_m_nonneg (at_ lat (i - 1)) (at_ lon (i - 1))
                                 (at_ lat i) (at_ lon i)) as [x [Hx Hx0]];
      try (apply at_uniform; [assumption | lia]).
    rewrite Hx. cbn [Series.lift2 nondecreasing_from]. split.
    + lra.
    + apply IH; lia.
Qed.

Lemma reconstruct_distance_nondecreasing (df : DataFrame) :
  df <> [] ->
  uniform (col latitude_deg df) ->
  uniform (col longitude_deg df) ->
  starts_at_zero_nondecreasing (reconstruct_distance great_circle df).
Proof.
  intros Hne Hlat Hlon. unfold reconstruct_distance.
  cbn [starts_at_zero_nondecreasing]. split; [reflexivity|].
  apply haversine_steps_nondecreasing; try assumption.
  - unfold col. rewrite !length_map. reflexivity.
  - lia.
  - unfold col. rewrite length_map.
    destruct df; [congruence | cbn [length]; lia].
Qed.

(** Where every record has a position, or none has, the rebuilt distance
    column starts at 0 and never decreases. *)
Lemma reconstructed_distance_nondecreasing (messages : list message) :
  messages <> [] ->
  distance_trigger (sort_values (map rec messages)) = true ->
  uniform (map (fun m => to_float (msg_position_lat m)) messages) ->
  uniform (map (fun m => to_float (msg_position_long m)) messages) ->
  starts_at_zero_nondecreasing
    (col distance_m (parse_fit_records great_circle messages)).
Proof.
  intros Hne Ht Hlat Hlon.
  pose proof (sorted_records_nonempty messages Hne) as Hs.
  rewrite parse_fit_records_unfold by exact Hne.
  unfold col at 1.
  rewrite altitude_pass_other, speed_pass_other by reflexivity.
  unfold distance_pass. rewrite Ht.
  rewrite map_assign_same
    by (reflexivity || apply reconstruct_distance_length, Hs).
  apply reconstruct_distance_nondecreasing; [exact Hs | |];
    unfold col;
    apply (uniform_perm _ _ _ (sort_values_perm (map rec messages)));
    rewrite map_map.
  - destruct Hlat as [H|H]; [left | right]; intros x Hin;
      apply in_map_iff in Hin; destruct Hin as [m [<- Hm]];
      specialize (H _ (in_map (fun m => to_float (msg_position_lat m)) _ _ Hm));
      cbn [rec latitude_deg]; unfold semicircles_to_deg;
      destruct (to_float (msg_position_lat m)); congruence.
  - destruct Hlon as [H|H]; [left | right]; intros x Hin;
      apply in_map_iff in Hin; destruct Hin as [m [<- Hm]];
      specialize (H _ (in_map (fun m => to_float (msg_position_long m)) _ _ Hm));
      cbn [rec longitude_deg]; unfold semicircles_to_deg;
      destruct (to_float (msg_position_long m)); congruence.
Qed.

(** The distance pass runs when no record has a distance. *)
Lemma distance_trigger_all_absent (messages : list message) :
  (forall m, In m messages -> to_float (msg_distance m) = None) ->
  distance_trigger (sort_values (map rec messages)) = true.
Proof.
  intros H. unfold distance_trigger.
  assert (Ho : Series.is_object (col distance_m (sort_values (map rec messages))) = true).
  { apply is_object_iff. intros x Hin. unfold col in Hin.
    apply in_map_iff in Hin. destruct Hin as [s [<- Hs]].
    apply (Permutation_in _ (Permutation_sym (sort_values_perm _))) in Hs.
    apply in_map_iff in Hs. destruct Hs as [m [<- Hm]].
    apply H, Hm. }
  unfold Series.is_object in Ho. rewrite Ho. reflexivity.
Qed.

End DistanceFacts.

Lemma grid_metres_nonneg (a b c d : Q) : 0 <= grid_metres a b c d.
Proof.
  unfold grid_metres.
  pose proof (Qabs_nonneg (c - a)). pose proof (Qabs_nonneg (d - b)).
  apply Qmult_le_0_compat; lra.
Qed.

(** On a track with a fix in every record the rebuilt distances grow. *)
Example gps_track_distance :
  starts_at_zero_nondecreasing
    (col distance_m (parse_fit_records grid_metres gps_track)).
Proof.
  apply (reconstructed_distance_nondecreasing grid_metres grid_metres_nonneg).
  - discriminate.
  - reflexivity.
  - right. intros x [<-|[<-|[<-|[]]]]; discriminate.
  - right. intros x [<-|[<-|[<-|[]]]]; discriminate.
Qed.

(** C6: two records without distance, the second without a position fix.
    The rebuilt distance column is 0 followed by NaN: the step next to the
    missing fix contributes NaN, not 0, and the column is not a
    non-decreasing sequence of numbers. *)
Theorem distance_is_nan_after_gps_gap (great_circle : Q -> Q -> Q -> Q -> Q) :
  distance_trigger (sort_values (map rec gps_gap)) = true
  /\ col distance_m (parse_fit_records great_circle gps_gap) = [Some 0; None]
  /\ ~ starts_at_zero_nondecreasing
       (col distance_m (parse_fit_records great_circle gps_gap)).
Proof.
  split; [reflexivity|].
  assert (E : col distance_m (parse_fit_records great_circle gps_gap) = [Some 0; None])
    by reflexivity.
  split; [exact E|].
  rewrite E. cbn [starts_at_zero_nondecreasing nondecreasing_from]. tauto.
Qed.

(** ** Moving time *)

Lemma select_moving (df : DataFrame) :
  Series.select (timestamps df)
                (Series.gt_scalar (Series.fillna 0 (col speed_m_s df)) (1 # 2))
  = timestamps (filter is_moving df).
Proof.
  unfold timestamps, col, Series.gt_scalar, Series.fillna.
  rewrite !map_map.
  induction df as [|s r IH]; [reflexivity|].
  cbn [map Series.select filter]. rewrite IH.
  assert (Hm : match
                 match speed_m_s s with
                 | Some _ => speed_m_s s
                 | None => Some 0
                 end
               with
               | Some q => negb (Qle_bool q (1 # 2))
               | None => false
               end = is_moving s)
    by (unfold is_moving; destruct (speed_m_s s); reflexivity).
  rewrite Hm. destruct (is_moving s); reflexivity.
Qed.

Lemma last_cons (x s : Sample) (r : DataFrame) : last (x :: r) s = last r x.
Proof.
  revert x s. induction r as [|y r IH]; intros x s; [reflexivity|].
  change (last (x :: y :: r) s) with (last (y :: r) s).
  rewrite (IH y s), (IH y x). reflexivity.
Qed.

Lemma diff_after_cons (s x : Sample) (r : DataFrame) :
  Series.fillna 0
    (Series.sub (timestamps (x :: r))
                (Series.shift_with (Some (timestamp s)) (timestamps (x :: r))))
  = Some (timestamp x - timestamp s)
    :: Series.fillna 0
         (Series.sub (timestamps r)
                     (Series.shift_with (Some (timestamp x)) (timestamps r))).
Proof. reflexivity. Qed.

Lemma sum_diff_after (r : DataFrame) : forall (s : Sample),
  Series.sum
    (Series.fillna 0
       (Series.sub (timestamps r)
                   (Series.shift_with (Some (timestamp s)) (timestamps r))))
  == timestamp (last r s) - timestamp s.
Proof.
  induction r as [|x r IH]; intros s.
  - cbn [timestamps map Series.sub Series.map2 Series.fillna Series.sum last].
    ring.
  - rewrite diff_after_cons, last_cons. cbn [Series.sum].
    rewrite IH. ring.
Qed.

(** What the calculator reports as moving time is the span from the first
    moving sample to the last one. *)
Lemma moving_time_span (df : DataFrame) :
  moving_time df == moving_span df.
Proof.
  unfold moving_time, moving_span. rewrite select_moving.
  destruct (filter is_moving df) as [|s r]; [reflexivity|].
  change (Series.fillna 0 (Series.diff (timestamps (s :: r))))
    with (Some 0 :: Series.fillna 0
            (Series.sub (timestamps r)
                        (Series.shift_with (Some (timestamp s)) (timestamps r)))).
  cbn [Series.sum]. rewrite (sum_diff_after r s). ring.
Qed.

(** C3: ride, stand still, ride on, at t = 0, 10, 20, 30 s with speeds
    1, 0, 0, 1 m/s.  The pairs whose earlier sample moves add up to 10 s;
    the calculator reports 30 s, the time from the first moving sample to
    the last one, as it does on every series. *)
Theorem moving_time_counts_the_stop :
  moving_time_spec stop_and_go = 10
  /\ moving_time stop_and_go = 30
  /\ (exists s,
         compute_metrics stop_and_go no_agg None None (Some 24) = Ok s
         /\ lookup "moving_time_s" s = Some (VFloat (Some (300 # 10))))
  /\ (forall df, moving_time df == moving_span df).
Proof.
  split; [reflexivity|]. split; [reflexivity|]. split.
  - eexists. split; reflexivity.
  - exact moving_time_span.
Qed.

(** ** Metrics calculator *)

Lemma positive_gain_usable (df : DataFrame) :
  altitude_usable df -> exists g, positive_gain (col altitude_m df) = Ok g.
Proof.
  intros H. unfold positive_gain, column_diff.
  destruct (col altitude_m df) as [|a r] eqn:E; [eexists; reflexivity|].
  assert (Hc : (Series.is_object (a :: r) && (2 <=? length (a :: r))%nat)%bool = false).
  { rewrite <- E. destruct H as [H|H].
    - rewrite H. reflexivity.
    - unfold col. rewrite length_map.
      apply Nat.leb_gt in H. rewrite H. apply andb_false_r. }
  rewrite Hc. cbn [bind]. eexists. reflexivity.
Qed.

(** Without a usable altitude column the calculator raises. *)
Lemma positive_gain_raises (df : DataFrame) :
  ~ altitude_usable df -> positive_gain (col altitude_m df) = Raise TypeError.
Proof.
  intros H. unfold altitude_usable in H.
  assert (Ho : Series.is_object (col altitude_m df) = true)
    by (destruct (Series.is_object (col altitude_m df)); [reflexivity | tauto]).
  assert (Hl : (2 <= length df)%nat) by lia.
  assert (Hd : column_diff (col altitude_m df) = Raise TypeError).
  { unfold column_diff. rewrite Ho. unfold col. rewrite length_map.
    apply Nat.leb_le in Hl. rewrite Hl. reflexivity. }
  unfold positive_gain.
  destruct (col altitude_m df) as [|a r] eqn:E.
  - destruct df; [cbn in Hl; lia | discriminate].
  - rewrite Hd. reflexivity.
Qed.

(** A summary computed from a non-empty frame has the 24 keys of the
    dictionary in [compute_metrics], whatever the inputs. *)
Lemma compute_metrics_keys (df : DataFrame) (agg : AggregateBundle)
      (wall eff muscle : option Q) (s : Summary) :
  df <> [] ->
  compute_metrics df agg wall eff muscle = Ok s ->
  map fst s = summary_keys.
Proof.
  intros Hne H. destruct df as [|first others]; [congruence|].
  unfold compute_metrics in H.
  destruct (positive_gain (col altitude_m (first :: others))) as [g|e];
    cbn [bind] in H; [|discriminate].
  injection H as <-. reflexivity.
Qed.

Lemma compute_metrics_returns (df : DataFrame) (agg : AggregateBundle)
      (wall eff muscle : option Q) :
  altitude_usable df ->
  exists s, compute_metrics df agg wall eff muscle = Ok s.
Proof.
  intros H. destruct df as [|first others]; [eexists; reflexivity|].
  destruct (positive_gain_usable _ H) as [g Hg].
  unfold compute_metrics. rewrite Hg. cbn [bind]. eexists. reflexivity.
Qed.

(** C8: for an empty series the calculator returns the no-data record, and
    it returns that record for no other series. *)
Theorem no_data_iff_empty (df : DataFrame) (agg : AggregateBundle)
        (wall eff muscle : option Q) :
  compute_metrics df agg wall eff muscle = Ok no_data <-> df = [].
Proof.
  split.
  - intros H. destruct df as [|first others]; [reflexivity|].
    apply compute_metrics_keys in H; [discriminate H | discriminate].
  - intros ->. reflexivity.
Qed.

(** C2: on two samples with heart rates 120 and 140 and temperatures 20 and
    22 the calculator computes the aggregates 130, 140 and 21, and the
    summary it returns has the keys of [summary_keys] only: none of them is
    for heart rate or temperature. *)
Theorem heart_rate_and_temperature_not_reported :
  mean_if_any (col heart_rate_bpm heart_rate_samples) = Some (260 # 2)
  /\ max_if_any (col heart_rate_bpm heart_rate_samples) = Some 140
  /\ mean_if_any (col temperature_c heart_rate_samples) = Some (42 # 2)
  /\ exists s,
       compute_metrics heart_rate_samples no_agg None None (Some 24) = Ok s
       /\ map fst s = summary_keys
       /\ lookup "avg_heart_rate_bpm" s = None
       /\ lookup "max_heart_rate_bpm" s = None
       /\ lookup "avg_temperature_c" s = None
       /\ lookup "avg_cadence_rpm" s = Some VNull
       /\ lookup "avg_power_w" s = Some VNull.
Proof.
  repeat (split; [reflexivity|]).
  eexists. split; [reflexivity|].
  repeat split.
Qed.

(** C4: on a non-empty series whose altitude column is usable the
    calculator returns a summary; its reference range is the 20 %/25 % pair
    when the muscular efficiency passed is a non-zero number, whatever that
    number is, and is absent together with the food-calorie estimate when
    the efficiency is None or 0. *)
Theorem calorie_range_follows_efficiency (df : DataFrame) (agg : AggregateBundle)
        (wall eff muscle : option Q) :
  df <> [] ->
  altitude_usable df ->
  exists s,
    compute_metrics df agg wall eff muscle = Ok s
    /\ lookup "calories_food_est_range_kcal" s
       = Some (if truthy muscle then reference_range df else VNull)
    /\ (truthy muscle = false -> lookup "calories_food_est_kcal" s = Some VNull).
Proof.
  intros Hne Hu. destruct df as [|first others]; [congruence|].
  destruct (positive_gain_usable _ Hu) as [g Hg].
  unfold compute_metrics. rewrite Hg. cbn [bind].
  eexists. split; [reflexivity|]. split.
  - reflexivity.
  - intros Hm. cbn [lookup String.eqb Ascii.eqb Bool.eqb]. rewrite Hm. reflexivity.
Qed.

Lemma calorie_range_follows_efficiency_witness :
  power_ride <> []
  /\ altitude_usable power_ride
  /\ exists s,
       compute_metrics power_ride no_agg None None (Some 24) = Ok s
       /\ lookup "calories_food_est_range_kcal" s
          = Some (if truthy (Some 24) then reference_range power_ride else VNull)
       /\ (truthy (Some 24) = false
           -> lookup "calories_food_est_kcal" s = Some VNull).
Proof.
  assert (H1 : power_ride <> []) by discriminate.
  assert (H2 : altitude_usable power_ride) by (left; reflexivity).
  exact (conj H1 (conj H2
    (calorie_range_follows_efficiency power_ride no_agg None None (Some 24) H1 H2))).
Defined.

(** With the efficiency passed as None the range is absent; with the
    argument left out (the default, 24) the estimate is present. *)
Lemma calorie_range_absent_without_efficiency :
  (exists s,
      compute_metrics power_ride no_agg None None None = Ok s
      /\ lookup "calories_food_est_kcal" s = Some VNull
      /\ lookup "calories_food_est_range_kcal" s = Some VNull
      /\ lookup "calories_food_est_range_kcal" s <> Some (reference_range power_ride))
  /\ (exists s,
         compute_metrics power_ride no_agg None None muscle_eff_pct_default = Ok s
         /\ lookup "calories_food_est_kcal" s = Some (VFloat (Some (25 # 10)))).
Proof.
  split.
  - eexists. split; [reflexivity|]. repeat split. discriminate.
  - eexists. split; [reflexivity|]. reflexivity.
Qed.

(** ** The two-sample scenario *)

(** C1: for two samples with altitudes 100 m and 95 m, the first without
    power and the second with 200 W, the elevation gain is 0 and the work
    integrator returns 0, one power value being too few to integrate. *)
Theorem descent_with_one_power_value (s1 s2 : Sample) :
  altitude_m s1 = Some 100 ->
  altitude_m s2 = Some 95 ->
  power_w s1 = None ->
  power_w s2 = Some 200 ->
  positive_gain (col altitude_m [s1; s2]) = Ok 0
  /\ integrate_work_joules [s1; s2] = 0.
Proof.
  intros A1 A2 P1 P2. split.
  - unfold col. cbn [map]. rewrite A1, A2. reflexivity.
  - unfold integrate_work_joules, col. cbn [map]. rewrite P1, P2. reflexivity.
Qed.

Lemma descent_with_one_power_value_witness :
  let s1 := mkSample 0 None None (Some 100) None None None None None None in
  let s2 := mkSample 10 None None (Some 95) None None None None (Some 200) None in
  altitude_m s1 = Some 100
  /\ altitude_m s2 = Some 95
  /\ power_w s1 = None
  /\ power_w s2 = Some 200
  /\ positive_gain (col altitude_m [s1; s2]) = Ok 0
  /\ integrate_work_joules [s1; s2] = 0.
Proof.
  intros s1 s2.
  exact (conj eq_refl (conj eq_refl (conj eq_refl (conj eq_refl
    (descent_with_one_power_value s1 s2 eq_refl eq_refl eq_refl eq_refl))))).
Defined.

(** On the scenario the integrated work is a full 1000 J away from 1000 J. *)
Lemma scenario_work_is_not_1000 :
  ~ (positive_gain (col altitude_m scenario_two_samples) = Ok 0
     /\ Qabs (integrate_work_joules scenario_two_samples - 1000) < 1000).
Proof.
  intros [_ H]. vm_compute in H. discriminate H.
Qed.

(** * Further properties *)

(** ** Elevation gain *)

Lemma gt_zero_diff (a b : Q) : negb (Qle_bool (a - b) 0) = negb (Qle_bool a b).
Proof.
  f_equal. destruct (Qle_bool a b) eqn:E.
  - apply Qle_bool_iff. apply Qle_bool_iff in E. lra.
  - apply not_true_is_false. intros H. apply Qle_bool_iff in H.
    assert (Hab : a <= b) by lra. apply Qle_bool_iff in Hab. congruence.
Qed.

Lemma rises_after_cons (prev x : option Q) (r : Series.t) :
  Series.sum (rises_after prev (x :: r))
  == rise prev x + Series.sum (rises_after x r).
Proof.
  unfold rises_after, rise.
  cbn [Series.sub Series.shift_with Series.map2 Series.lift2 Series.gt_scalar
       map Series.select].
  destruct x as [a|], prev as [b|];
    cbn [Series.lift2 Series.select Series.sum]; try (symmetry; apply Qplus_0_l).
  rewrite gt_zero_diff.
  destruct (Qle_bool a b); cbn [negb Series.sum];
    [symmetry; apply Qplus_0_l | reflexivity].
Qed.

Lemma sum_rises_after (s : Series.t) : forall prev,
  Series.sum (rises_after prev s) == climb_from prev s.
Proof.
  induction s as [|x r IH]; intros prev.
  - reflexivity.
  - rewrite rises_after_cons. cbn [climb_from]. rewrite IH. reflexivity.
Qed.

Lemma rise_nonneg (prev x : option Q) : 0 <= rise prev x.
Proof.
  unfold rise. destruct x as [a|], prev as [b|]; try apply Qle_refl.
  destruct (Qle_bool a b) eqn:E; [apply Qle_refl|].
  assert (~ a <= b) by (intros H; apply Qle_bool_iff in H; congruence).
  lra.
Qed.

Lemma climb_from_nonneg (s : Series.t) : forall prev, 0 <= climb_from prev s.
Proof.
  induction s as [|x r IH]; intros prev; cbn [climb_from].
  - apply Qle_refl.
  - pose proof (rise_nonneg prev x). pose proof (IH x). lra.
Qed.

Lemma or_zero_num_eq (q : Q) : or_zero_num q == q.
Proof.
  unfold or_zero_num. destruct (Qeq_bool q 0) eqn:E; [|reflexivity].
  apply Qeq_bool_iff in E. symmetry. exact E.
Qed.

Lemma positive_gain_value (s : Series.t) (g : Q) :
  positive_gain s = Ok g ->
  g = or_zero_num (Series.sum (rises_after None s)).
Proof.
  unfold positive_gain, column_diff. destruct s as [|x r].
  - intros H. injection H as <-. reflexivity.
  - destruct (_ && _)%bool; cbn [bind]; [discriminate|].
    intros H. injection H as <-. reflexivity.
Qed.

(** X1: when [positive_gain] returns, its result is the sum of the rises
    between consecutive values that are both present, and it is never
    negative: a descent or a gap adds nothing. *)
Theorem positive_gain_is_climb (s : Series.t) (g : Q) :
  positive_gain s = Ok g ->
  g == climb s /\ 0 <= g.
Proof.
  intros H. apply positive_gain_value in H. subst g.
  rewrite or_zero_num_eq, sum_rises_after. split; [reflexivity|].
  apply climb_from_nonneg.
Qed.

Lemma climb_from_descent (s : Series.t) : forall prev,
  never_rises_from prev s -> climb_from prev s == 0.
Proof.
  induction s as [|x r IH]; intros prev H; cbn [climb_from].
  - reflexivity.
  - destruct H as [Hx Hr]. rewrite (IH x Hr).
    unfold rise. destruct x as [a|], prev as [b|]; try reflexivity.
    apply Qle_bool_iff in Hx. rewrite Hx. reflexivity.
Qed.

(** X2: on a column in which no present value is higher than a present
    value right before it, the elevation gain returned is exactly 0. *)
Theorem positive_gain_descent (s : Series.t) (g : Q) :
  positive_gain s = Ok g ->
  never_rises_from None s ->
  g = 0.
Proof.
  intros H Hd. apply positive_gain_value in H. subst g.
  assert (E : Series.sum (rises_after None s) == 0)
    by (rewrite sum_rises_after; apply climb_from_descent, Hd).
  unfold or_zero_num. apply Qeq_bool_iff in E. rewrite E. reflexivity.
Qed.

Lemma climb_from_ascent (l : list Q) : forall a,
  Sorted Qle (a :: l) ->
  climb_from (Some a) (map Some l) == last l a - a.
Proof.
  induction l as [|x r IH]; intros a Hs; cbn [map climb_from].
  - cbn [last]. ring.
  - inversion Hs as [|? ? Hs' Hhd]; subst. inversion Hhd as [|? ? Hax]; subst.
    rewrite (IH x Hs').
    assert (El : last (x :: r) a = last r x).
    { clear. revert x a. induction r as [|y r IHr]; intros x a; [reflexivity|].
      change (last (x :: y :: r) a) with (last (y :: r) a).
      rewrite (IHr y a), (IHr y x). reflexivity. }
    rewrite El. unfold rise.
    destruct (Qle_bool x a) eqn:E.
    + apply Qle_bool_iff in E. assert (x == a) by lra. lra.
    + ring.
Qed.

Lemma positive_gain_present (a : Q) (l : list Q) :
  positive_gain (map Some (a :: l))
  = Ok (or_zero_num (Series.sum (rises_after None (map Some (a :: l))))).
Proof. reflexivity. Qed.

(** X3: on a column without gaps that never descends, the elevation gain is
    the last altitude minus the first. *)
Theorem positive_gain_ascent (a : Q) (l : list Q) :
  Sorted Qle (a :: l) ->
  exists g, positive_gain (map Some (a :: l)) = Ok g /\ g == last l a - a.
Proof.
  intros Hs. eexists. split; [apply positive_gain_present|].
  rewrite or_zero_num_eq, sum_rises_after.
  cbn [map climb_from]. rewrite (climb_from_ascent l a Hs).
  unfold rise. ring.
Qed.

(** ** What the extractor keeps *)

Section KeepFacts.

Variable great_circle : Q -> Q -> Q -> Q -> Q.

Lemma parse_fit_records_other {A} (g : Sample -> A) (messages : list message) :
  (forall s v, g (set_distance s v) = g s) ->
  (forall s v, g (set_speed s v) = g s) ->
  (forall s v, g (set_altitude s v) = g s) ->
  map g (parse_fit_records great_circle messages)
  = map g (sort_values (map rec messages)).
Proof.
  intros Hd Hs Ha. destruct messages as [|m ms]; [reflexivity|].
  rewrite parse_fit_records_unfold by discriminate.
  rewrite altitude_pass_other, speed_pass_other by assumption.
  apply distance_pass_other; [exact Hd|].
  apply sorted_records_nonempty. discriminate.
Qed.

(** X4: the extractor returns one sample per record message, sorted by
    timestamp, and the fields no pass assigns (timestamp, position, heart
    rate, cadence, power, temperature) are those of the records, row by
    row, in some order. *)
Theorem extractor_keeps_records (messages : list message) :
  let df := parse_fit_records great_circle messages in
  length df = length messages
  /\ Sorted Qle (map timestamp df)
  /\ Permutation (map untouched (map rec messages)) (map untouched df).
Proof.
  intros df. unfold df. split; [|split].
  - rewrite <- (length_map timestamp), parse_fit_records_timestamps.
    rewrite length_map, sort_values_length, length_map. reflexivity.
  - apply parse_fit_records_sorted.
  - rewrite (parse_fit_records_other untouched) by reflexivity.
    apply Permutation_map, sort_values_perm.
Qed.

Lemma speed_trigger_false (messages : list message) :
  messages <> [] ->
  (2 * absent_count msg_speed messages <= length messages)%nat ->
  speed_trigger (distance_pass great_circle (sort_values (map rec messages))) = false.
Proof.
  intros Hne H. apply not_true_is_false. intros Ht.
  apply speed_trigger_input in Ht; [|exact Hne].
  unfold speed_mostly_absent in Ht. unfold absent_count in H. lia.
Qed.

(** X5: when at most half of the records lack a speed, the speed pass does
    not run: the speed column is the decoded one, gaps included. *)
Theorem speed_kept_when_mostly_present (messages : list message) :
  (2 * absent_count msg_speed messages <= length messages)%nat ->
  col speed_m_s (parse_fit_records great_circle messages)
  = col speed_m_s (sort_values (map rec messages)).
Proof.
  intros H. destruct messages as [|m ms] eqn:E; [reflexivity|]. rewrite <- E in *.
  assert (Hne : messages <> []) by (rewrite E; discriminate).
  rewrite parse_fit_records_unfold by exact Hne.
  unfold col. rewrite altitude_pass_other by reflexivity.
  unfold speed_pass. rewrite (speed_trigger_false messages Hne H).
  apply distance_pass_other; [reflexivity|].
  apply sorted_records_nonempty, Hne.
Qed.

End KeepFacts.

(** ** Columns the passes leave alone or fill *)

Lemma max_ge (s : Series.t) (d : Q) :
  In (Some d) s -> exists m, Series.max s = Some m /\ d <= m.
Proof.
  induction s as [|x r IH]; intros Hin; [destruct Hin|].
  destruct Hin as [->|Hin].
  - cbn [Series.max]. destruct (Series.max r) as [m|].
    + eexists. split; [reflexivity | apply Q.le_max_l].
    + eexists. split; [reflexivity | apply Qle_refl].
  - destruct (IH Hin) as [m [Hm Hd]]. cbn [Series.max]. rewrite Hm.
    destruct x as [q|].
    + eexists. split; [reflexivity|].
      apply Qle_trans with m; [exact Hd | apply Q.le_max_r].
    + eexists. split; [reflexivity | exact Hd].
Qed.

Lemma distance_trigger_false (df : DataFrame) (d : Q) :
  In (Some d) (col distance_m df) -> 0 < d -> distance_trigger df = false.
Proof.
  intros Hin Hd. unfold distance_trigger.
  destruct (max_ge _ _ Hin) as [m [Hm Hdm]]. rewrite Hm.
  assert (Hm0 : Qeq_bool m 0 = false).
  { apply not_true_is_false. intros E. apply Qeq_bool_iff in E. lra. }
  cbn [or_zero]. rewrite Hm0, Hm0, orb_false_r.
  apply not_true_is_false. intros Hall.
  change (Series.is_object (col distance_m df) = true) in Hall.
  pose proof (proj1 (is_object_iff _) Hall _ Hin) as E. discriminate E.
Qed.

Section FillFacts.

Variable great_circle : Q -> Q -> Q -> Q -> Q.

(** X6: when some record has a positive distance, the distance pass does
    not run: the distance column is the decoded one. *)
Theorem distance_kept_when_positive (messages : list message) (m : message) (d : Q) :
  In m messages ->
  to_float (msg_distance m) = Some d ->
  0 < d ->
  col distance_m (parse_fit_records great_circle messages)
  = col distance_m (sort_values (map rec messages)).
Proof.
  intros Hin Hm Hd.
  assert (Hne : messages <> []) by (intros E; rewrite E in Hin; destruct Hin).
  rewrite parse_fit_records_unfold by exact Hne.
  unfold col. rewrite altitude_pass_other, speed_pass_other by reflexivity.
  unfold distance_pass.
  rewrite (distance_trigger_false _ d); [reflexivity | | exact Hd].
  unfold col. apply in_map_iff.
  exists (rec m). split; [exact Hm|].
  apply (Permutation_in _ (sort_values_perm _)), in_map, Hin.
Qed.

End FillFacts.

(** ** Altitude gap filling *)

Lemma interpolate_from_keeps (s : Series.t) : forall prev i a,
  nth_error s i = Some (Some a) ->
  nth_error (interpolate_from prev s) i = Some (Some a).
Proof.
  induction s as [|x r IH]; intros prev i a H; [destruct i; discriminate|].
  destruct i as [|i]; cbn [nth_error] in H.
  - injection H as ->. reflexivity.
  - destruct x; cbn [interpolate_from nth_error]; apply IH, H.
Qed.

Lemma next_valid_present (s : Series.t) :
  (0 < Series.count (Series.notna s))%nat -> next_valid s <> None.
Proof.
  induction s as [|x r IH]; cbn; [lia|].
  destruct x; [discriminate|]. intros H.
  destruct (next_valid r) as [[y j]|]; [discriminate | apply IH, H].
Qed.

Lemma interpolate_from_total (s : Series.t) : forall prev,
  prev <> None \/ next_valid s <> None ->
  Forall (fun x => x <> None) (interpolate_from prev s).
Proof.
  induction s as [|x r IH]; intros prev H; [constructor|].
  destruct x as [y|]; cbn [interpolate_from].
  - constructor; [discriminate | apply IH; left; discriminate].
  - constructor.
    + destruct prev as [[a k]|].
      * destruct (next_valid r) as [[b j]|]; discriminate.
      * destruct H as [H|H]; [congruence|]. cbn [next_valid] in H.
        destruct (next_valid r) as [[b j]|]; [discriminate | congruence].
    + apply IH. destruct prev as [[a k]|]; [left; discriminate|].
      right. destruct H as [H|H]; [congruence|]. cbn [next_valid] in H.
      destruct (next_valid r) as [[b j]|]; [discriminate | congruence].
Qed.

Lemma next_valid_in (s : Series.t) (b : Q) (j : nat) :
  next_valid s = Some (b, j) -> In (Some b) s.
Proof.
  revert j. induction s as [|x r IH]; intros j H; [discriminate|].
  destruct x as [y|]; cbn [next_valid] in H.
  - injection H as -> _. left. reflexivity.
  - destruct (next_valid r) as [[y k]|] eqn:E; [|discriminate].
    injection H as -> _. right. apply (IH k). reflexivity.
Qed.

(** A value on the line from [a] to [b] lies between them. *)
Lemma between_bounds (lo hi a b : Q) (k j : nat) :
  lo <= a <= hi -> lo <= b <= hi ->
  lo <= a + (b - a) * inject_Z (Z.of_nat k) / inject_Z (Z.of_nat (k + j + 1)) <= hi.
Proof.
  intros Ha Hb.
  set (n := inject_Z (Z.of_nat (k + j + 1))).
  set (c := inject_Z (Z.of_nat k)).
  assert (Hn : 0 < n).
  { unfold n. change 0 with (inject_Z 0). rewrite <- Zlt_Qlt. lia. }
  assert (Hc : 0 <= c).
  { unfold c. change 0 with (inject_Z 0). rewrite <- Zle_Qle. lia. }
  assert (Hcn : c <= n).
  { unfold c, n. rewrite <- Zle_Qle. lia. }
  set (t := c / n).
  assert (Ht0 : 0 <= t) by (unfold t; apply Qle_shift_div_l; lra).
  assert (Ht1 : t <= 1) by (unfold t; apply Qle_shift_div_r; lra).
  assert (E : a + (b - a) * c / n == a + (b - a) * t)
    by (unfold t; field; lra).
  rewrite E. split; nra.
Qed.

Lemma interpolate_from_within (lo hi : Q) (s : Series.t) : forall prev,
  within lo hi s ->
  (forall a k, prev = Some (a, k) -> lo <= a <= hi) ->
  within lo hi (interpolate_from prev s).
Proof.
  induction s as [|x r IH]; intros prev Hs Hp v Hv; [destruct Hv|].
  assert (Hr : within lo hi r) by (intros y Hy; apply Hs; right; exact Hy).
  destruct x as [y|]; cbn [interpolate_from] in Hv.
  - destruct Hv as [E|Hv].
    + injection E as <-. apply Hs. left. reflexivity.
    + apply (IH (Some (y, 1%nat))); [exact Hr | | exact Hv].
      intros a k E. injection E as <- _. apply Hs. left. reflexivity.
  - destruct Hv as [E|Hv].
    + destruct prev as [[a k]|]; destruct (next_valid r) as [[b j]|] eqn:En;
        try discriminate; injection E as <-.
      * apply between_bounds; [apply (Hp a k eq_refl)|].
        apply Hr, (next_valid_in r b j En).
      * apply (Hp a k eq_refl).
      * apply Hr, (next_valid_in r b j En).
    + apply (IH (match prev with Some (a, k) => Some (a, S k) | None => None end));
        [exact Hr | | exact Hv].
      intros a k E. destruct prev as [[a' k']|]; [|discriminate].
      injection E as <- _. apply (Hp a' k' eq_refl).
Qed.

Section AltitudeFacts.

Variable great_circle : Q -> Q -> Q -> Q -> Q.

Lemma sorted_altitude_count (messages : list message) :
  Series.count (Series.notna (col altitude_m (sort_values (map rec messages))))
  = present_count msg_altitude messages.
Proof.
  unfold present_count, Series.notna, col. rewrite !map_map.
  rewrite <- (count_perm (fun x => negb (Series.is_na (altitude_m x))) _ _
                (sort_values_perm (map rec messages))).
  rewrite map_map. reflexivity.
Qed.

(** The altitude column that the extractor hands on. *)
Lemma parse_fit_records_altitude (messages : list message) :
  col altitude_m (parse_fit_records great_circle messages)
  = if (5 <? present_count msg_altitude messages)%nat
    then interpolate (col altitude_m (sort_values (map rec messages)))
    else col altitude_m (sort_values (map rec messages)).
Proof.
  destruct messages as [|m0 ms] eqn:E; [reflexivity|]. rewrite <- E.
  assert (Hne : messages <> []) by (rewrite E; discriminate).
  rewrite parse_fit_records_unfold by exact Hne.
  set (df2 := speed_pass (distance_pass great_circle (sort_values (map rec messages)))).
  assert (Hc : col altitude_m df2 = col altitude_m (sort_values (map rec messages))).
  { unfold df2, col. rewrite speed_pass_other by reflexivity.
    apply distance_pass_other; [reflexivity | apply sorted_records_nonempty, Hne]. }
  unfold altitude_pass. rewrite Hc, sorted_altitude_count.
  destruct (5 <? present_count msg_altitude messages)%nat; [|exact Hc].
  unfold col at 1. rewrite map_assign_same; [reflexivity | reflexivity |].
  unfold interpolate. rewrite interpolate_from_length, <- Hc.
  unfold col. apply length_map.
Qed.

(** X7: with more than five altitude values among the records, gap filling
    leaves no sample without an altitude and keeps every measured altitude
    at its place. *)
Theorem altitude_gaps_filled (messages : list message) :
  (5 < present_count msg_altitude messages)%nat ->
  let before := col altitude_m (sort_values (map rec messages)) in
  let after := col altitude_m (parse_fit_records great_circle messages) in
  Forall (fun x => x <> None) after
  /\ (forall i a, nth_error before i = Some (Some a) ->
                  nth_error after i = Some (Some a)).
Proof.
  intros H before after. unfold after.
  rewrite parse_fit_records_altitude.
  apply Nat.ltb_lt in H. rewrite H. fold before. split.
  - apply interpolate_from_total. right. apply next_valid_present.
    unfold before. rewrite sorted_altitude_count.
    apply Nat.ltb_lt in H. lia.
  - intros i a Hi. apply interpolate_from_keeps, Hi.
Qed.

(** X8: altitudes in the extractor's output never leave a range that holds
    every measured altitude, whether gaps were filled or not. *)
Theorem altitude_within_measured_range (messages : list message) (lo hi : Q) :
  (forall m a, In m messages -> to_float (msg_altitude m) = Some a ->
               lo <= a <= hi) ->
  within lo hi (col altitude_m (parse_fit_records great_circle messages)).
Proof.
  intros H.
  assert (Hs : within lo hi (col altitude_m (sort_values (map rec messages)))).
  { intros x Hx. unfold col in Hx. apply in_map_iff in Hx.
    destruct Hx as [s [Hs Hin]].
    apply (Permutation_in _ (Permutation_sym (sort_values_perm _))) in Hin.
    apply in_map_iff in Hin. destruct Hin as [m [<- Hm]].
    apply (H m x Hm Hs). }
  rewrite parse_fit_records_altitude.
  destruct (5 <? _)%nat; [|exact Hs].
  apply interpolate_from_within; [exact Hs | discriminate].
Qed.

(** X9: with five altitude values or fewer, gap filling does not run and
    the altitude column keeps its gaps. *)
Theorem altitude_kept_when_sparse (messages : list message) :
  (present_count msg_altitude messages <= 5)%nat ->
  col altitude_m (parse_fit_records great_circle messages)
  = col altitude_m (sort_values (map rec messages)).
Proof.
  intros H. rewrite parse_fit_records_altitude.
  apply Nat.ltb_ge in H. rewrite H. reflexivity.
Qed.

End AltitudeFacts.

(** ** Summary fields *)



Lemma integrate_work_joules_few (df : DataFrame) :
  (power_samples df < 2)%nat -> integrate_work_joules df = 0.
Proof.
  intros H. rewrite integrate_work_joules_unfold.
  apply Nat.ltb_lt in H. rewrite H. reflexivity.
Qed.

(** X11: with fewer than two power values the rider's work is 0, and then
    the food-calorie estimate is null although a muscular efficiency was
    given, while the reference range holds 0.0 twice. *)
Theorem food_estimate_absent_without_work (df : DataFrame) (agg : AggregateBundle)
        (wall eff muscle : option Q) :
  df <> [] ->
  altitude_usable df ->
  (power_samples df < 2)%nat ->
  truthy muscle = true ->
  exists s,
    compute_metrics df agg wall eff muscle = Ok s
    /\ lookup "rider_work_J" s = Some (VFloat (Some (0 # 10)))
    /\ lookup "calories_food_est_kcal" s = Some VNull
    /\ lookup "calories_food_est_range_kcal" s
       = Some (VDict [("20%", VFloat (Some (0 # 10)));
                      ("25%", VFloat (Some (0 # 10)))]).
Proof.
  intros Hne Hu Hp Hm. destruct df as [|first others]; [congruence|].
  destruct (positive_gain_usable _ Hu) as [g Hg].
  pose proof (integrate_work_joules_few _ Hp) as Hw.
  unfold compute_metrics. rewrite Hg, Hw, Hm. cbn [bind].
  eexists. split; [reflexivity|].
  cbn [lookup String.eqb Ascii.eqb Bool.eqb].
  split; [reflexivity|]. split; [|reflexivity].
  destruct muscle as [e|]; [|discriminate].
  unfold round_if_truthy. cbn [option_map truthy].
  assert (E : Qeq_bool (0 / 4184 / (e / 100)) 0 = true).
  { apply Qeq_bool_iff. unfold Qdiv. ring. }
  rewrite E. reflexivity.
Qed.

(** ** Rounding keeps order *)

Ltac order_of_compare H :=
  match type of H with
  | _ = Eq => apply Qeq_alt in H
  | _ = Lt => apply Qlt_alt in H
  | _ = Gt => apply Qgt_alt in H
  end.

Lemma round_half_even_cases (x : Q) :
  (round_half_even x = Qfloor x /\ x - inject_Z (Qfloor x) <= 1 # 2)
  \/ (round_half_even x = (Qfloor x + 1)%Z /\ (1 # 2) <= x - inject_Z (Qfloor x)).
Proof.
  unfold round_half_even.
  destruct (Qcompare (x - inject_Z (Qfloor x)) (1 # 2)) eqn:E.
  - apply Qeq_alt in E.
    destruct (Z.even (Qfloor x)); [left | right]; (split; [reflexivity | lra]).
  - apply Qlt_alt in E. left. split; [reflexivity | lra].
  - apply Qgt_alt in E. right. split; [reflexivity | lra].
Qed.

Lemma round_half_even_mono (x y : Q) :
  x <= y -> (round_half_even x <= round_half_even y)%Z.
Proof.
  intros Hxy.
  pose proof (Qfloor_resp_le x y Hxy) as Hf.
  destruct (Z.eq_dec (Qfloor x) (Qfloor y)) as [Heq|Hneq].
  - unfold round_half_even. rewrite Heq.
    assert (Hr : x - inject_Z (Qfloor y) <= y - inject_Z (Qfloor y)) by lra.
    destruct (Qcompare (x - inject_Z (Qfloor y)) (1 # 2)) eqn:Ex;
      destruct (Qcompare (y - inject_Z (Qfloor y)) (1 # 2)) eqn:Ey;
      order_of_compare Ex; order_of_compare Ey;
      try (destruct (Z.even (Qfloor y))); try lia; exfalso; lra.
  - destruct (round_half_even_cases x) as [[-> _]|[-> _]];
      destruct (round_half_even_cases y) as [[-> _]|[-> _]]; lia.
Qed.

Lemma py_round_mono (x y : Q) (ndigits : nat) :
  x <= y -> py_round x ndigits <= py_round y ndigits.
Proof.
  intros Hxy. unfold py_round.
  set (scale := inject_Z (10 ^ Z.of_nat ndigits)).
  assert (Hs : 0 < scale).
  { unfold scale. change 0 with (inject_Z 0). rewrite <- Zlt_Qlt.
    apply Z.pow_pos_nonneg; lia. }
  assert (Hm : x * scale <= y * scale) by (apply Qmult_le_compat_r; lra).
  apply round_half_even_mono in Hm. rewrite Zle_Qle in Hm.
  apply Qle_shift_div_l; [exact Hs|].
  assert (E : inject_Z (round_half_even (x * scale)) / scale * scale
              == inject_Z (round_half_even (x * scale))) by (field; lra).
  rewrite E. exact Hm.
Qed.

(** ** Mean and maximum of a column *)

Lemma count_notna_cons_some (q : Q) (r : Series.t) :
  Series.count (Series.notna (Some q :: r)) = S (Series.count (Series.notna r)).
Proof. reflexivity. Qed.

Lemma count_notna_cons_none (r : Series.t) :
  Series.count (Series.notna (None :: r)) = Series.count (Series.notna r).
Proof. reflexivity. Qed.

Lemma max_none (s : Series.t) :
  Series.max s = None ->
  Series.sum s == 0 /\ Series.count (Series.notna s) = O.
Proof.
  induction s as [|x r IH]; intros H; [split; reflexivity|].
  destruct x as [q|]; cbn [Series.max] in H.
  - destruct (Series.max r); discriminate.
  - rewrite count_notna_cons_none. cbn [Series.sum]. apply IH, H.
Qed.

Lemma inject_succ (n : nat) :
  inject_Z (Z.of_nat (S n)) == inject_Z (Z.of_nat n) + 1.
Proof. rewrite Nat2Z.inj_succ, <- Z.add_1_r, inject_Z_plus. reflexivity. Qed.

Lemma inject_nat_nonneg (n : nat) : 0 <= inject_Z (Z.of_nat n).
Proof. change 0 with (inject_Z 0). rewrite <- Zle_Qle. lia. Qed.

Lemma sum_le_count_max (s : Series.t) : forall m,
  Series.max s = Some m ->
  Series.sum s <= inject_Z (Z.of_nat (Series.count (Series.notna s))) * m.
Proof.
  induction s as [|x r IH]; intros m H; [discriminate|].
  destruct x as [q|]; cbn [Series.max] in H.
  - rewrite count_notna_cons_some, inject_succ. cbn [Series.sum].
    pose proof (inject_nat_nonneg (Series.count (Series.notna r))) as Hn.
    destruct (Series.max r) as [m'|] eqn:Er; injection H as <-.
    + specialize (IH m' eq_refl).
      pose proof (Q.le_max_l q m'). pose proof (Q.le_max_r q m'). nra.
    + destruct (max_none r Er) as [Hs Hc]. rewrite Hs, Hc.
      change (inject_Z (Z.of_nat 0)) with 0. lra.
  - rewrite count_notna_cons_none. cbn [Series.sum]. apply IH, H.
Qed.

Lemma any_notna_count (s : Series.t) :
  Series.any (Series.notna s) = true <-> (0 < Series.count (Series.notna s))%nat.
Proof.
  induction s as [|x r IH]; [cbn; split; [discriminate | lia]|].
  destruct x as [q|].
  - rewrite count_notna_cons_some. cbn. split; [lia | reflexivity].
  - rewrite count_notna_cons_none. exact IH.
Qed.

Lemma any_notna_false (s : Series.t) :
  Series.any (Series.notna s) = false <-> all_absent s.
Proof.
  unfold all_absent. induction s as [|x r IH].
  - split; [intros _ x [] | reflexivity].
  - destruct x as [q|].
    + split; [discriminate|]. intros H.
      specialize (H (Some q) (or_introl eq_refl)). discriminate.
    + change (Series.any (Series.notna (None :: r)))
        with (Series.any (Series.notna r)).
      rewrite IH. split.
      * intros H x [<-|Hx]; [reflexivity | apply H, Hx].
      * intros H x Hx. apply H. right. exact Hx.
Qed.

Lemma count_positive_max (s : Series.t) :
  (0 < Series.count (Series.notna s))%nat -> exists m, Series.max s = Some m.
Proof.
  intros H. destruct (Series.max s) as [m|] eqn:E; [eexists; reflexivity|].
  destruct (max_none s E) as [_ Hc]. lia.
Qed.

(** The two aggregates of a column as the summary shows them. *)
Lemma aggregates_of_column (c : Series.t) :
  (all_absent c
   /\ round_opt (mean_if_any c) 1 = VNull
   /\ round_opt (max_if_any c) 1 = VNull)
  \/ (~ all_absent c
      /\ exists a m,
           round_opt (mean_if_any c) 1 = VFloat (Some a)
           /\ round_opt (max_if_any c) 1 = VFloat (Some m)
           /\ a <= m).
Proof.
  unfold mean_if_any, max_if_any.
  destruct (Series.any (Series.notna c)) eqn:E.
  - right. split.
    + intros H. apply any_notna_false in H. congruence.
    + apply any_notna_count in E.
      destruct (count_positive_max c E) as [m Hm].
      pose proof (sum_le_count_max c m Hm) as Hs.
      unfold Series.mean. rewrite Hm.
      destruct (Series.count (Series.notna c)) as [|n] eqn:En; [lia|].
      cbn [round_opt]. do 2 eexists. split; [reflexivity|]. split; [reflexivity|].
      apply py_round_mono.
      assert (Hn : 0 < inject_Z (Z.of_nat (S n)))
        by (change 0 with (inject_Z 0); rewrite <- Zlt_Qlt; lia).
      apply Qle_shift_div_r; [exact Hn | lra].
  - left. split; [apply any_notna_false, E | split; reflexivity].
Qed.

(** X13: in the summary the average and the maximum of cadence, and of
    power, are both null exactly when the column has no value; otherwise
    both are numbers and the average is not above the maximum. *)
Theorem cadence_and_power_aggregates (df : DataFrame) (agg : AggregateBundle)
        (wall eff muscle : option Q) :
  df <> [] ->
  altitude_usable df ->
  exists s avg_cad max_cad avg_pwr max_pwr,
    compute_metrics df agg wall eff muscle = Ok s
    /\ lookup "avg_cadence_rpm" s = Some avg_cad
    /\ lookup "max_cadence_rpm" s = Some max_cad
    /\ lookup "avg_power_w" s = Some avg_pwr
    /\ lookup "max_power_w" s = Some max_pwr
    /\ ((all_absent (col cadence_rpm df) /\ avg_cad = VNull /\ max_cad = VNull)
        \/ (~ all_absent (col cadence_rpm df)
            /\ exists a m, avg_cad = VFloat (Some a)
                           /\ max_cad = VFloat (Some m) /\ a <= m))
    /\ ((all_absent (col power_w df) /\ avg_pwr = VNull /\ max_pwr = VNull)
        \/ (~ all_absent (col power_w df)
            /\ exists a m, avg_pwr = VFloat (Some a)
                           /\ max_pwr = VFloat (Some m) /\ a <= m)).
Proof.
  intros Hne Hu. destruct df as [|first others]; [congruence|].
  destruct (positive_gain_usable _ Hu) as [g Hg].
  unfold compute_metrics. rewrite Hg. cbn [bind].
  do 5 eexists. split; [reflexivity|].
  cbn [lookup String.eqb Ascii.eqb Bool.eqb].
  repeat (split; [reflexivity|]).
  split; apply aggregates_of_column.
Qed.

(** ** Time bounds *)

Lemma earliest_le (first : Sample) (others : DataFrame) (s : Sample) :
  In s (first :: others) -> earliest first others <= timestamp s.
Proof.
  unfold earliest. induction others as [|x r IH]; cbn [fold_right].
  - intros [<-|[]]. apply Qle_refl.
  - intros [<-|[<-|Hin]].
    + eapply Qle_trans; [apply Q.le_min_r | apply IH; left; reflexivity].
    + apply Q.le_min_l.
    + eapply Qle_trans; [apply Q.le_min_r | apply IH; right; exact Hin].
Qed.

Lemma latest_ge (first : Sample) (others : DataFrame) (s : Sample) :
  In s (first :: others) -> timestamp s <= latest first others.
Proof.
  unfold latest. induction others as [|x r IH]; cbn [fold_right].
  - intros [<-|[]]. apply Qle_refl.
  - intros [<-|[<-|Hin]].
    + eapply Qle_trans; [apply IH; left; reflexivity | apply Q.le_max_r].
    + apply Q.le_max_l.
    + eapply Qle_trans; [apply IH; right; exact Hin | apply Q.le_max_r].
Qed.

Lemma earliest_glb (first : Sample) (others : DataFrame) (b : Q) :
  (forall s, In s (first :: others) -> b <= timestamp s) ->
  b <= earliest first others.
Proof.
  unfold earliest. induction others as [|x r IH]; cbn [fold_right]; intros H.
  - apply H. left. reflexivity.
  - apply Q.min_glb.
    + apply H. right. left. reflexivity.
    + apply IH. intros s [<-|Hin]; apply H; [left | right; right]; auto.
Qed.

Lemma latest_lub (first : Sample) (others : DataFrame) (b : Q) :
  (forall s, In s (first :: others) -> timestamp s <= b) ->
  latest first others <= b.
Proof.
  unfold latest. induction others as [|x r IH]; cbn [fold_right]; intros H.
  - apply H. left. reflexivity.
  - apply Q.max_lub.
    + apply H. right. left. reflexivity.
    + apply IH. intros s [<-|Hin]; apply H; [left | right; right]; auto.
Qed.

Lemma sorted_by_time (df : DataFrame) :
  Sorted Qle (map timestamp df) -> StronglySorted by_time df.
Proof.
  intros H. apply Sorted_StronglySorted in H; [|exact Qle_trans].
  induction df as [|s r IH]; [constructor|].
  cbn [map] in H. inversion H as [|? ? Hr Hall]; subst.
  constructor; [apply IH, Hr|].
  apply Forall_forall. intros x Hx.
  rewrite Forall_forall in Hall. apply Hall, in_map, Hx.
Qed.

Lemma strongly_sorted_filter (f : Sample -> bool) (df : DataFrame) :
  StronglySorted by_time df -> StronglySorted by_time (filter f df).
Proof.
  induction 1 as [|s r Hr IH Hall]; cbn [filter]; [constructor|].
  destruct (f s); [|exact IH].
  constructor; [exact IH|].
  apply Forall_forall. intros x Hx. apply filter_In in Hx.
  rewrite Forall_forall in Hall. apply Hall, Hx.
Qed.

Lemma last_in (s : Sample) (r : DataFrame) : In (last r s) (s :: r).
Proof.
  revert s. induction r as [|x r IH]; intros s; [left; reflexivity|].
  rewrite last_cons. right. apply IH.
Qed.

Lemma strongly_sorted_last (s : Sample) (r : DataFrame) :
  StronglySorted by_time (s :: r) -> timestamp s <= timestamp (last r s).
Proof.
  intros H. inversion H as [|? ? _ Hall]; subst.
  destruct (last_in s r) as [E|Hin]; [rewrite <- E; apply Qle_refl|].
  rewrite Forall_forall in Hall. apply (Hall _ Hin).
Qed.

Lemma sorted_le_last (others : DataFrame) : forall first s,
  StronglySorted by_time (first :: others) ->
  In s (first :: others) ->
  timestamp s <= timestamp (last others first).
Proof.
  induction others as [|x r IH]; intros first s Hss Hin.
  - destruct Hin as [<-|[]]. apply Qle_refl.
  - rewrite last_cons. inversion Hss as [|? ? Hr Hall]; subst.
    destruct Hin as [<-|Hin]; [|apply (IH x s Hr Hin)].
    eapply Qle_trans; [|apply (IH x x Hr); left; reflexivity].
    rewrite Forall_forall in Hall. apply Hall. left. reflexivity.
Qed.

Lemma moving_span_bounds (first : Sample) (others : DataFrame) :
  Sorted Qle (map timestamp (first :: others)) ->
  0 <= moving_span (first :: others)
       <= latest first others - earliest first others.
Proof.
  intros Hs. unfold moving_span.
  pose proof (strongly_sorted_filter is_moving _ (sorted_by_time _ Hs)) as Hf.
  pose proof (earliest_le first others first (or_introl eq_refl)) as H0.
  pose proof (latest_ge first others first (or_introl eq_refl)) as H1.
  destruct (filter is_moving (first :: others)) as [|s r] eqn:E; [lra|].
  pose proof (strongly_sorted_last s r Hf) as Hl.
  assert (Hs_in : In s (first :: others)).
  { apply (proj1 (filter_In is_moving s (first :: others))).
    rewrite E. left. reflexivity. }
  assert (Hl_in : In (last r s) (first :: others)).
  { apply (proj1 (filter_In is_moving (last r s) (first :: others))).
    rewrite E. apply last_in. }
  pose proof (earliest_le first others s Hs_in).
  pose proof (latest_ge first others (last r s) Hl_in).
  lra.
Qed.

Lemma py_round_zero (ndigits : nat) : py_round 0 ndigits == 0.
Proof.
  unfold py_round. set (z := (10 ^ Z.of_nat ndigits)%Z).
  change (0 * inject_Z z) with 0.
  change (round_half_even 0) with 0%Z. unfold Qdiv. ring.
Qed.

(** X12: on a series sorted by timestamp the start time is that of the
    first sample, the end time that of the last, and the elapsed time their
    difference. *)
Theorem times_of_sorted_series (first : Sample) (others : DataFrame)
        (agg : AggregateBundle) (wall eff muscle : option Q) :
  Sorted Qle (map timestamp (first :: others)) ->
  altitude_usable (first :: others) ->
  exists s t0 t1 e,
    compute_metrics (first :: others) agg wall eff muscle = Ok s
    /\ lookup "start_time" s = Some (VLocalTime t0)
    /\ t0 == timestamp first
    /\ lookup "end_time" s = Some (VLocalTime t1)
    /\ t1 == timestamp (last others first)
    /\ lookup "elapsed_time_s" s = Some (VFloat (Some (py_round e 1)))
    /\ e == timestamp (last others first) - timestamp first.
Proof.
  intros Hs Hu. destruct (positive_gain_usable _ Hu) as [g Hg].
  unfold compute_metrics. rewrite Hg. cbn [bind].
  fold (earliest first others). fold (latest first others).
  do 4 eexists. split; [reflexivity|].
  cbn [lookup String.eqb Ascii.eqb Bool.eqb].
  assert (E0 : earliest first others == timestamp first).
  { apply Qle_antisym; [apply earliest_le; left; reflexivity|].
    apply earliest_glb. intros s [<-|Hin]; [apply Qle_refl|].
    pose proof (sorted_by_time _ Hs) as Hss.
    inversion Hss as [|? ? _ Hall]; subst.
    rewrite Forall_forall in Hall. apply (Hall _ Hin). }
  assert (E1 : latest first others == timestamp (last others first)).
  { apply Qle_antisym; [|apply latest_ge, last_in].
    apply latest_lub. intros s Hin.
    apply sorted_le_last; [apply sorted_by_time, Hs | exact Hin]. }
  split; [reflexivity|]. split; [exact E0|].
  split; [reflexivity|]. split; [exact E1|].
  split; [reflexivity|]. rewrite E0, E1. reflexivity.
Qed.

(** X14: on a series sorted by timestamp the reported moving time is
    between 0 and the reported elapsed time. *)
Theorem moving_time_within_elapsed (first : Sample) (others : DataFrame)
        (agg : AggregateBundle) (wall eff muscle : option Q) :
  Sorted Qle (map timestamp (first :: others)) ->
  altitude_usable (first :: others) ->
  exists s moving elapsed,
    compute_metrics (first :: others) agg wall eff muscle = Ok s
    /\ lookup "moving_time_s" s = Some (VFloat (Some moving))
    /\ lookup "elapsed_time_s" s = Some (VFloat (Some elapsed))
    /\ 0 <= moving <= elapsed.
Proof.
  intros Hs Hu. destruct (positive_gain_usable _ Hu) as [g Hg].
  unfold compute_metrics. rewrite Hg. cbn [bind].
  fold (earliest first others). fold (latest first others).
  do 3 eexists. split; [reflexivity|].
  cbn [lookup String.eqb Ascii.eqb Bool.eqb].
  split; [reflexivity|]. split; [reflexivity|].
  destruct (moving_span_bounds first others Hs) as [H0 H1].
  rewrite <- moving_time_span in H0, H1. split.
  - rewrite <- (py_round_zero 1). apply py_round_mono, H0.
  - apply py_round_mono, H1.
Qed.

(** ** Work at constant power *)

Lemma last_cons_any {A} (l : list A) : forall (x d : A),
  last (x :: l) d = last l x.
Proof.
  induction l as [|y l IH]; intros x d; [reflexivity|].
  change (last (x :: y :: l) d) with (last (y :: l) d).
  rewrite (IH y d), (IH y x). reflexivity.
Qed.

Lemma last_timestamp (l : DataFrame) : forall d,
  last (map timestamp l) (timestamp d) = timestamp (last l d).
Proof.
  induction l as [|x l IH]; intros d; [reflexivity|].
  cbn [map]. rewrite !last_cons_any. apply IH.
Qed.

Lemma trapezoid_from_constant (P : Q) (r : DataFrame) : forall tp,
  (forall s, In s r -> power_w s = Some P) ->
  trapezoid_from tp P r == P * (last (map timestamp r) tp - tp).
Proof.
  induction r as [|x r IH]; intros tp H; cbn [trapezoid_from map].
  - cbn [last]. ring.
  - assert (Hx : power_or_zero x = P)
      by (unfold power_or_zero; rewrite (H x (or_introl eq_refl)); reflexivity).
    rewrite Hx, IH by (intros s Hs; apply H; right; exact Hs).
    assert (El : last (timestamp x :: map timestamp r) tp
                 = last (map timestamp r) (timestamp x))
      by apply last_cons_any.
    rewrite El. field.
Qed.

Lemma power_samples_all (P : Q) (df : DataFrame) :
  (forall s, In s df -> power_w s = Some P) -> power_samples df = length df.
Proof.
  unfold power_samples, col. induction df as [|x r IH]; intros H; [reflexivity|].
  cbn [map]. rewrite (H x (or_introl eq_refl)), count_notna_cons_some.
  cbn [length]. f_equal. apply IH. intros s Hs. apply H. right. exact Hs.
Qed.

(** X15: when every sample of a series of two or more carries the same
    power, the integrated work is that power times the time from the first
    sample to the last. *)
Theorem constant_power_work (P : Q) (first : Sample) (others : DataFrame) :
  others <> [] ->
  (forall s, In s (first :: others) -> power_w s = Some P) ->
  integrate_work_joules (first :: others)
  == P * (timestamp (last others first) - timestamp first).
Proof.
  intros Hne H.
  rewrite integrate_work_joules_unfold, (power_samples_all P _ H).
  destruct others as [|x r]; [congruence|].
  change (length (first :: x :: r) <? 2)%nat with false. cbv iota.
  rewrite sum_work_trapezoid. cbn [trapezoid].
  assert (Hf : power_or_zero first = P)
    by (unfold power_or_zero; rewrite (H first (or_introl eq_refl)); reflexivity).
  rewrite Hf, trapezoid_from_constant
    by (intros s Hs; apply H; right; exact Hs).
  rewrite last_timestamp. reflexivity.
Qed.

(** ** Unit conversion *)

(** X16: a numeric position between -2^31 and 2^31 semicircles converts to
    a number of degrees between -180 and 180, with 2^31 semicircles to 180
    degrees. *)
Theorem semicircles_to_deg_range (val : field) (v : Q) :
  to_float val = Some v ->
  - inject_Z (2 ^ 31) <= v <= inject_Z (2 ^ 31) ->
  exists d,
    semicircles_to_deg val = Some d
    /\ d * inject_Z (2 ^ 31) == 180 * v
    /\ -180 <= d <= 180.
Proof.
  intros Hv Hr. unfold semicircles_to_deg. rewrite Hv.
  eexists. split; [reflexivity|].
  unfold SEMICIRCLES_TO_DEGREES.
  set (n := inject_Z (2 ^ 31)) in *.
  assert (Hn : 0 < n) by reflexivity.
  assert (E : v * (180 / n) * n == 180 * v) by (field; lra).
  split; [exact E|].
  assert (E2 : v * (180 / n) == 180 * v / n) by (field; lra).
  rewrite E2. split.
  - apply Qle_shift_div_l; [exact Hn | lra].
  - apply Qle_shift_div_r; [exact Hn | lra].
Qed.

(** ** Sorted input *)


Section OrderFacts.

Variable great_circle : Q -> Q -> Q -> Q -> Q.


End OrderFacts.

(** ** When the calculator raises *)

(** X20: the calculator raises exactly when the frame has two rows or more
    and no altitude value at all. *)
Theorem compute_metrics_raises_iff (df : DataFrame) (agg : AggregateBundle)
        (wall eff muscle : option Q) :
  compute_metrics df agg wall eff muscle = Raise TypeError
  <-> (Series.is_object (col altitude_m df) = true /\ (2 <= length df)%nat).
Proof.
  split.
  - intros H.
    destruct (Series.is_object (col altitude_m df)) eqn:Ho.
    + split; [reflexivity|].
      destruct (Nat.le_gt_cases 2 (length df)) as [Hl|Hl]; [exact Hl|].
      destruct (compute_metrics_returns df agg wall eff muscle (or_intror Hl))
        as [s Hs]. congruence.
    + destruct (compute_metrics_returns df agg wall eff muscle (or_introl Ho))
        as [s Hs]. congruence.
  - intros [Ho Hl].
    assert (Hn : ~ altitude_usable df)
      by (unfold altitude_usable; intros [H|H]; [congruence | lia]).
    pose proof (positive_gain_raises df Hn) as Hr.
    destruct df as [|first others]; [cbn in Hl; lia|].
    unfold compute_metrics. rewrite Hr. reflexivity.
Qed.

(** ** Distance without positions *)

Section NoFixFacts.

Variable great_circle : Q -> Q -> Q -> Q -> Q.

Lemma haversine_steps_no_fix (lat lon : Series.t) (steps : nat) : forall i,
  Series.is_object lat = true \/ Series.is_object lon = true ->
  Forall (fun d => d = Some 0)
         (haversine_steps great_circle lat lon i steps (Some 0)).
Proof.
  intros i H. revert i. induction steps as [|k IH]; intros i; [constructor|].
  cbn [haversine_steps].
  assert (Hd : haversine_m great_circle (at_ lat (i - 1)) (at_ lon (i - 1))
                           (at_ lat i) (at_ lon i) = Some 0).
  { unfold haversine_m, at_. destruct H as [H|H]; rewrite H; cbn [existsb is_PyNone orb].
    - reflexivity.
    - rewrite orb_true_r. reflexivity. }
  rewrite Hd. change (Series.lift2 Qplus (Some 0) (or_zero (Some 0))) with (Some 0).
  constructor; [reflexivity | apply IH].
Qed.

(** X17: when no record has a distance and none has a latitude, every
    sample of the extractor's output has distance 0. *)
Theorem distance_zero_without_positions (messages : list message) :
  messages <> [] ->
  (forall m, In m messages -> to_float (msg_distance m) = None) ->
  (forall m, In m messages -> to_float (msg_position_lat m) = None) ->
  forall s, In s (parse_fit_records great_circle messages) ->
            distance_m s = Some 0.
Proof.
  intros Hne Hd Hlat s Hin.
  pose proof (sorted_records_nonempty messages Hne) as Hs.
  assert (Hcol : col distance_m (parse_fit_records great_circle messages)
                 = reconstruct_distance great_circle (sort_values (map rec messages))).
  { rewrite parse_fit_records_unfold by exact Hne.
    unfold col at 1.
    rewrite altitude_pass_other, speed_pass_other by reflexivity.
    unfold distance_pass.
    rewrite (distance_trigger_all_absent messages Hd).
    apply map_assign_same; [reflexivity|].
    apply reconstruct_distance_length, Hs. }
  assert (Hall : Forall (fun d => d = Some 0)
                        (reconstruct_distance great_circle (sort_values (map rec messages)))).
  { unfold reconstruct_distance. constructor; [reflexivity|].
    apply haversine_steps_no_fix. left.
    apply is_object_iff. intros x Hx. unfold col in Hx.
    apply in_map_iff in Hx. destruct Hx as [r [<- Hr]].
    apply (Permutation_in _ (Permutation_sym (sort_values_perm _))) in Hr.
    apply in_map_iff in Hr. destruct Hr as [m [<- Hm]].
    cbn [rec latitude_deg]. unfold semicircles_to_deg.
    rewrite (Hlat m Hm). reflexivity. }
  rewrite <- Hcol in Hall. rewrite Forall_forall in Hall.
  apply Hall. unfold col. apply in_map, Hin.
Qed.

End NoFixFacts.

(** ** Average speed without elapsed time *)

(** X21: when every sample has the timestamp of the first one, the elapsed
    time is 0 and the average speed is reported as 0.0. *)
Theorem avg_speed_zero_without_elapsed (first : Sample) (others : DataFrame)
        (agg : AggregateBundle) (wall eff muscle : option Q) :
  altitude_usable (first :: others) ->
  (forall s, In s others -> timestamp s == timestamp first) ->
  exists s,
    compute_metrics (first :: others) agg wall eff muscle = Ok s
    /\ lookup "elapsed_time_s" s = Some (VFloat (Some (py_round (latest first others - earliest first others) 1)))
    /\ latest first others - earliest first others == 0
    /\ lookup "avg_speed_kmh" s = Some (VFloat (Some (0 # 100))).
Proof.
  intros Hu Hsame. destruct (positive_gain_usable _ Hu) as [g Hg].
  assert (Hall : forall s, In s (first :: others) -> timestamp s == timestamp first)
    by (intros s [<-|Hs]; [reflexivity | apply Hsame, Hs]).
  assert (E : latest first others - earliest first others == 0).
  { assert (latest first others <= timestamp first)
      by (apply latest_lub; intros s Hs; rewrite (Hall s Hs); apply Qle_refl).
    assert (timestamp first <= earliest first others)
      by (apply earliest_glb; intros s Hs; rewrite (Hall s Hs); apply Qle_refl).
    pose proof (earliest_le first others first (or_introl eq_refl)).
    pose proof (latest_ge first others first (or_introl eq_refl)).
    lra. }
  unfold compute_metrics. rewrite Hg. cbn [bind].
  fold (earliest first others). fold (latest first others).
  eexists. split; [reflexivity|].
  cbn [lookup String.eqb Ascii.eqb Bool.eqb].
  split; [reflexivity|]. split; [exact E|].
  assert (Hb : Qle_bool (latest first others - earliest first others) 0 = true)
    by (apply Qle_bool_iff; lra).
  rewrite Hb. reflexivity.
Qed.

(** ** Rebuilt speed and distance steps *)

Lemma derived_speeds_from_nth (r : DataFrame) : forall tp dp i r0 r1,
  nth_error r i = Some r0 ->
  nth_error r (S i) = Some r1 ->
  nth_error (derived_speeds_from tp dp r) (S i)
  = Some (derived_speed (timestamp r0) (distance_m r0) r1).
Proof.
  induction r as [|x r IH]; intros tp dp i r0 r1 H0 H1; [destruct i; discriminate|].
  destruct i as [|i]; cbn [nth_error] in H0, H1.
  - injection H0 as ->. destruct r as [|y r']; [discriminate|].
    cbn [nth_error] in H1. injection H1 as ->. reflexivity.
  - cbn [derived_speeds_from nth_error]. apply (IH _ _ i r0 r1 H0 H1).
Qed.

Lemma derived_speeds_nth (df : DataFrame) (i : nat) (r0 r1 : Sample) :
  nth_error df i = Some r0 ->
  nth_error df (S i) = Some r1 ->
  nth_error (derived_speeds df) (S i)
  = Some (derived_speed (timestamp r0) (distance_m r0) r1).
Proof.
  intros H0 H1. destruct df as [|x r]; [destruct i; discriminate|].
  cbn [derived_speeds]. destruct i as [|i]; cbn [nth_error] in H0, H1.
  - injection H0 as ->. destruct r as [|y r']; [discriminate|].
    cbn [nth_error] in H1. injection H1 as ->. reflexivity.
  - cbn [nth_error]. apply (derived_speeds_from_nth r _ _ i r0 r1 H0 H1).
Qed.

Section StepFacts.

Variable great_circle : Q -> Q -> Q -> Q -> Q.

(** X18: when the speed pass runs, the speed of a sample times the time
    since the sample before it is the distance between the two, where both
    distances are present and the timestamps differ; the speed is not
    negative when the distance does not decrease. *)
Theorem rebuilt_speed_times_time_is_distance (messages : list message)
        (i : nat) (s0 s1 : Sample) (d0 d1 : Q) :
  messages <> [] ->
  speed_mostly_absent messages ->
  nth_error (parse_fit_records great_circle messages) i = Some s0 ->
  nth_error (parse_fit_records great_circle messages) (S i) = Some s1 ->
  distance_m s0 = Some d0 ->
  distance_m s1 = Some d1 ->
  ~ timestamp s1 == timestamp s0 ->
  exists v,
    speed_m_s s1 = Some v
    /\ v * (timestamp s1 - timestamp s0) == d1 - d0
    /\ (d0 <= d1 -> 0 <= v).
Proof.
  intros Hne Hs H0 H1 D0 D1 Ht.
  set (df := parse_fit_records great_circle messages) in *.
  set (B := before_speed great_circle messages).
  assert (Hv : col speed_m_s df = map Some (derived_speeds B))
    by (apply parse_fit_records_speed; assumption).
  assert (HB : forall {A} (g : Sample -> A),
             (forall s v, g (set_speed s v) = g s) ->
             (forall s v, g (set_altitude s v) = g s) ->
             map g df = map g B).
  { intros A g Hg1 Hg2. unfold df.
    rewrite parse_fit_records_unfold by exact Hne.
    rewrite altitude_pass_other, speed_pass_other by assumption. reflexivity. }
  pose proof (HB _ (fun s => (timestamp s, distance_m s))
                 (fun _ _ => eq_refl) (fun _ _ => eq_refl)) as Hk.
  assert (K0 : nth_error (map (fun s => (timestamp s, distance_m s)) B) i
               = Some (timestamp s0, distance_m s0))
    by (rewrite <- Hk, nth_error_map, H0; reflexivity).
  assert (K1 : nth_error (map (fun s => (timestamp s, distance_m s)) B) (S i)
               = Some (timestamp s1, distance_m s1))
    by (rewrite <- Hk, nth_error_map, H1; reflexivity).
  rewrite nth_error_map in K0, K1.
  destruct (nth_error B i) as [r0|] eqn:R0; [|discriminate].
  destruct (nth_error B (S i)) as [r1|] eqn:R1; [|discriminate].
  injection K0 as T0 E0. injection K1 as T1 E1.
  pose proof (derived_speeds_nth B i r0 r1 R0 R1) as Hd.
  assert (Hsp : nth_error (map speed_m_s df) (S i) = Some (speed_m_s s1))
    by (rewrite nth_error_map, H1; reflexivity).
  unfold col in Hv. rewrite Hv, nth_error_map, Hd in Hsp.
  cbn [option_map] in Hsp. injection Hsp as Hsp.
  exists (derived_speed (timestamp r0) (distance_m r0) r1).
  split; [symmetry; exact Hsp|].
  unfold derived_speed, distance_delta.
  rewrite T0, T1, E0, E1, D0, D1.
  assert (Hn : ~ timestamp s1 - timestamp s0 == 0) by (intros E; apply Ht; lra).
  assert (Hb : Qeq_bool (timestamp s1 - timestamp s0) 0 = false)
    by (apply not_true_is_false; intros E; apply Qeq_bool_iff in E; tauto).
  rewrite Hb. split; [field; exact Hn|].
  intros Hdd.
  pose proof (parse_fit_records_sorted great_circle messages) as Hsorted.
  fold df in Hsorted. apply sorted_by_time in Hsorted.
  assert (Hle : timestamp s0 <= timestamp s1).
  { clear - Hsorted H0 H1. revert i H0 H1.
    induction Hsorted as [|x r Hr IH Hall]; intros i H0 H1;
      [destruct i; discriminate|].
    destruct i as [|i]; cbn [nth_error] in H0, H1.
    - injection H0 as ->. rewrite Forall_forall in Hall.
      apply Hall. destruct r; [discriminate|].
      cbn [nth_error] in H1. injection H1 as ->. left. reflexivity.
    - apply (IH i H0 H1). }
  apply Qle_shift_div_l; lra.
Qed.

End StepFacts.

(** ** Instances of the further properties *)

Ltac concrete_order := repeat (constructor; try (unfold Qle; cbn; lia)).

Lemma positive_gain_is_climb_witness :
  positive_gain mixed_profile = Ok 25
  /\ 25 == climb mixed_profile /\ 0 <= 25.
Proof.
  assert (H : positive_gain mixed_profile = Ok 25) by reflexivity.
  exact (conj H (positive_gain_is_climb mixed_profile 25 H)).
Defined.

Lemma positive_gain_descent_witness :
  positive_gain descent_profile = Ok 0
  /\ never_rises_from None descent_profile
  /\ 0 = 0.
Proof.
  assert (H : positive_gain descent_profile = Ok 0) by reflexivity.
  assert (Hd : never_rises_from None descent_profile).
  { cbn [never_rises_from descent_profile].
    repeat split; unfold Qle; cbn; lia. }
  exact (conj H (conj Hd (positive_gain_descent descent_profile 0 H Hd))).
Defined.

Lemma positive_gain_ascent_witness :
  Sorted Qle (100 :: ascent_profile)
  /\ exists g, positive_gain (map Some (100 :: ascent_profile)) = Ok g
               /\ g == last ascent_profile 100 - 100.
Proof.
  assert (H : Sorted Qle (100 :: ascent_profile)) by (unfold ascent_profile; concrete_order).
  exact (conj H (positive_gain_ascent 100 ascent_profile H)).
Defined.

Lemma speed_kept_when_mostly_present_witness :
  (2 * absent_count msg_speed dense_speed <= length dense_speed)%nat
  /\ col speed_m_s (parse_fit_records grid_metres dense_speed)
     = col speed_m_s (sort_values (map rec dense_speed)).
Proof.
  assert (H : (2 * absent_count msg_speed dense_speed <= length dense_speed)%nat)
    by (cbn; lia).
  exact (conj H (speed_kept_when_mostly_present grid_metres dense_speed H)).
Defined.

Lemma distance_kept_when_positive_witness :
  let m := mkMessage 2 Absent Absent Absent (Number 6) (Number 9)
                     Absent Absent Absent Absent in
  In m dense_speed
  /\ to_float (msg_distance m) = Some 9
  /\ 0 < 9
  /\ col distance_m (parse_fit_records grid_metres dense_speed)
     = col distance_m (sort_values (map rec dense_speed)).
Proof.
  intros m.
  assert (H1 : In m dense_speed) by (right; right; left; reflexivity).
  assert (H2 : to_float (msg_distance m) = Some 9) by reflexivity.
  assert (H3 : 0 < 9) by reflexivity.
  exact (conj H1 (conj H2 (conj H3
    (distance_kept_when_positive grid_metres dense_speed m 9 H1 H2 H3)))).
Defined.

Lemma altitude_gaps_filled_witness :
  (5 < present_count msg_altitude altitude_gaps)%nat
  /\ (let before := col altitude_m (sort_values (map rec altitude_gaps)) in
      let after := col altitude_m (parse_fit_records grid_metres altitude_gaps) in
      Forall (fun x => x <> None) after
      /\ (forall i a, nth_error before i = Some (Some a) ->
                      nth_error after i = Some (Some a))).
Proof.
  assert (H : (5 < present_count msg_altitude altitude_gaps)%nat) by (cbn; lia).
  exact (conj H (altitude_gaps_filled grid_metres altitude_gaps H)).
Defined.

Lemma altitude_within_measured_range_witness :
  (forall m a, In m altitude_gaps -> to_float (msg_altitude m) = Some a ->
               100 <= a <= 130)
  /\ within 100 130 (col altitude_m (parse_fit_records grid_metres altitude_gaps)).
Proof.
  assert (H : forall m a, In m altitude_gaps ->
                          to_float (msg_altitude m) = Some a -> 100 <= a <= 130).
  { intros m a Hin Ha. unfold altitude_gaps in Hin. cbn [In] in Hin.
    repeat (destruct Hin as [<-|Hin];
            [cbn in Ha; try discriminate; injection Ha as <-;
             split; unfold Qle; cbn; lia|]).
    destruct Hin. }
  exact (conj H (altitude_within_measured_range grid_metres altitude_gaps 100 130 H)).
Defined.

Lemma altitude_kept_when_sparse_witness :
  (present_count msg_altitude few_altitudes <= 5)%nat
  /\ col altitude_m (parse_fit_records grid_metres few_altitudes)
     = col altitude_m (sort_values (map rec few_altitudes)).
Proof.
  assert (H : (present_count msg_altitude few_altitudes <= 5)%nat) by (cbn; lia).
  exact (conj H (altitude_kept_when_sparse grid_metres few_altitudes H)).
Defined.


Lemma food_estimate_absent_without_work_witness :
  scenario_two_samples <> []
  /\ altitude_usable scenario_two_samples
  /\ (power_samples scenario_two_samples < 2)%nat
  /\ truthy (Some 24) = true
  /\ exists s,
       compute_metrics scenario_two_samples no_agg None None (Some 24) = Ok s
       /\ lookup "rider_work_J" s = Some (VFloat (Some (0 # 10)))
       /\ lookup "calories_food_est_kcal" s = Some VNull
       /\ lookup "calories_food_est_range_kcal" s
          = Some (VDict [("20%", VFloat (Some (0 # 10)));
                         ("25%", VFloat (Some (0 # 10)))]).
Proof.
  assert (H1 : scenario_two_samples <> []) by discriminate.
  assert (H2 : altitude_usable scenario_two_samples) by (left; reflexivity).
  assert (H3 : (power_samples scenario_two_samples < 2)%nat) by (cbn; lia).
  assert (H4 : truthy (Some 24) = true) by reflexivity.
  exact (conj H1 (conj H2 (conj H3 (conj H4
    (food_estimate_absent_without_work scenario_two_samples no_agg
       None None (Some 24) H1 H2 H3 H4))))).
Defined.

Lemma times_of_sorted_series_witness :
  Sorted Qle (map timestamp (stop_first :: stop_others))
  /\ altitude_usable (stop_first :: stop_others)
  /\ exists s t0 t1 e,
       compute_metrics (stop_first :: stop_others) no_agg None None (Some 24) = Ok s
       /\ lookup "start_time" s = Some (VLocalTime t0)
       /\ t0 == timestamp stop_first
       /\ lookup "end_time" s = Some (VLocalTime t1)
       /\ t1 == timestamp (last stop_others stop_first)
       /\ lookup "elapsed_time_s" s = Some (VFloat (Some (py_round e 1)))
       /\ e == timestamp (last stop_others stop_first) - timestamp stop_first.
Proof.
  assert (H1 : Sorted Qle (map timestamp (stop_first :: stop_others)))
    by (cbn [map stop_first stop_others timestamp]; concrete_order).
  assert (H2 : altitude_usable (stop_first :: stop_others)) by (left; reflexivity).
  exact (conj H1 (conj H2
    (times_of_sorted_series stop_first stop_others no_agg None None (Some 24) H1 H2))).
Defined.

Lemma cadence_and_power_aggregates_witness :
  power_ride <> []
  /\ altitude_usable power_ride
  /\ exists s avg_cad max_cad avg_pwr max_pwr,
       compute_metrics power_ride no_agg None None (Some 24) = Ok s
       /\ lookup "avg_cadence_rpm" s = Some avg_cad
       /\ lookup "max_cadence_rpm" s = Some max_cad
       /\ lookup "avg_power_w" s = Some avg_pwr
       /\ lookup "max_power_w" s = Some max_pwr
       /\ ((all_absent (col cadence_rpm power_ride)
            /\ avg_cad = VNull /\ max_cad = VNull)
           \/ (~ all_absent (col cadence_rpm power_ride)
               /\ exists a m, avg_cad = VFloat (Some a)
                              /\ max_cad = VFloat (Some m) /\ a <= m))
       /\ ((all_absent (col power_w power_ride)
            /\ avg_pwr = VNull /\ max_pwr = VNull)
           \/ (~ all_absent (col power_w power_ride)
               /\ exists a m, avg_pwr = VFloat (Some a)
                              /\ max_pwr = VFloat (Some m) /\ a <= m)).
Proof.
  assert (H1 : power_ride <> []) by discriminate.
  assert (H2 : altitude_usable power_ride) by (left; reflexivity).
  exact (conj H1 (conj H2
    (cadence_and_power_aggregates power_ride no_agg None None (Some 24) H1 H2))).
Defined.

Lemma moving_time_within_elapsed_witness :
  Sorted Qle (map timestamp (stop_first :: stop_others))
  /\ altitude_usable (stop_first :: stop_others)
  /\ exists s moving elapsed,
       compute_metrics (stop_first :: stop_others) no_agg None None (Some 24) = Ok s
       /\ lookup "moving_time_s" s = Some (VFloat (Some moving))
       /\ lookup "elapsed_time_s" s = Some (VFloat (Some elapsed))
       /\ 0 <= moving <= elapsed.
Proof.
  assert (H1 : Sorted Qle (map timestamp (stop_first :: stop_others)))
    by (cbn [map stop_first stop_others timestamp]; concrete_order).
  assert (H2 : altitude_usable (stop_first :: stop_others)) by (left; reflexivity).
  exact (conj H1 (conj H2
    (moving_time_within_elapsed stop_first stop_others no_agg None None (Some 24) H1 H2))).
Defined.

Lemma constant_power_work_witness :
  steady_others <> []
  /\ (forall s, In s (steady_first :: steady_others) -> power_w s = Some 150)
  /\ integrate_work_joules (steady_first :: steady_others)
     == 150 * (timestamp (last steady_others steady_first) - timestamp steady_first).
Proof.
  assert (H1 : steady_others <> []) by discriminate.
  assert (H2 : forall s, In s (steady_first :: steady_others) -> power_w s = Some 150)
    by (intros s [<-|[<-|[<-|[]]]]; reflexivity).
  exact (conj H1 (conj H2 (constant_power_work 150 steady_first steady_others H1 H2))).
Defined.

Lemma semicircles_to_deg_range_witness :
  to_float (Number 572662306) = Some 572662306
  /\ (- inject_Z (2 ^ 31) <= 572662306 <= inject_Z (2 ^ 31))
  /\ exists d,
       semicircles_to_deg (Number 572662306) = Some d
       /\ d * inject_Z (2 ^ 31) == 180 * 572662306
       /\ -180 <= d <= 180.
Proof.
  assert (H1 : to_float (Number 572662306) = Some 572662306) by reflexivity.
  assert (H2 : - inject_Z (2 ^ 31) <= 572662306 <= inject_Z (2 ^ 31))
    by (split; unfold Qle; cbn; lia).
  exact (conj H1 (conj H2
    (semicircles_to_deg_range (Number 572662306) 572662306 H1 H2))).
Defined.

Lemma distance_zero_without_positions_witness :
  no_fix <> []
  /\ (forall m, In m no_fix -> to_float (msg_distance m) = None)
  /\ (forall m, In m no_fix -> to_float (msg_position_lat m) = None)
  /\ (forall s, In s (parse_fit_records grid_metres no_fix) -> distance_m s = Some 0).
Proof.
  assert (H1 : no_fix <> []) by discriminate.
  assert (H2 : forall m, In m no_fix -> to_float (msg_distance m) = None)
    by (intros m [<-|[<-|[<-|[]]]]; reflexivity).
  assert (H3 : forall m, In m no_fix -> to_float (msg_position_lat m) = None)
    by (intros m [<-|[<-|[<-|[]]]]; reflexivity).
  exact (conj H1 (conj H2 (conj H3
    (distance_zero_without_positions grid_metres no_fix H1 H2 H3)))).
Defined.

Lemma rebuilt_speed_times_time_is_distance_witness :
  exists s0 s1,
    sparse_speed <> []
    /\ speed_mostly_absent sparse_speed
    /\ nth_error (parse_fit_records grid_metres sparse_speed) 0 = Some s0
    /\ nth_error (parse_fit_records grid_metres sparse_speed) 1 = Some s1
    /\ distance_m s0 = Some 10
    /\ distance_m s1 = Some 40
    /\ ~ timestamp s1 == timestamp s0
    /\ exists v,
         speed_m_s s1 = Some v
         /\ v * (timestamp s1 - timestamp s0) == 40 - 10
         /\ (10 <= 40 -> 0 <= v).
Proof.
  pose (s0 := mkSample 0 None None None (Some 0) (Some 10) None None None None).
  pose (s1 := mkSample 5 None None None (Some (30 # 5)) (Some 40) None None None None).
  exists s0, s1.
  assert (H1 : sparse_speed <> []) by discriminate.
  assert (H2 : speed_mostly_absent sparse_speed)
    by (unfold speed_mostly_absent; cbn; lia).
  assert (H3 : nth_error (parse_fit_records grid_metres sparse_speed) 0 = Some s0)
    by reflexivity.
  assert (H4 : nth_error (parse_fit_records grid_metres sparse_speed) 1 = Some s1)
    by reflexivity.
  assert (H5 : distance_m s0 = Some 10) by reflexivity.
  assert (H6 : distance_m s1 = Some 40) by reflexivity.
  assert (H7 : ~ timestamp s1 == timestamp s0) by discriminate.
  exact (conj H1 (conj H2 (conj H3 (conj H4 (conj H5 (conj H6 (conj H7
    (rebuilt_speed_times_time_is_distance grid_metres sparse_speed 0 s0 s1 10 40
       H1 H2 H3 H4 H5 H6 H7)))))))).
Defined.


Lemma avg_speed_zero_without_elapsed_witness :
  altitude_usable (steady_first :: twin_others)
  /\ (forall s, In s twin_others -> timestamp s == timestamp steady_first)
  /\ exists s,
       compute_metrics (steady_first :: twin_others) no_agg None None (Some 24) = Ok s
       /\ lookup "elapsed_time_s" s
          = Some (VFloat (Some (py_round (latest steady_first twin_others
                                          - earliest steady_first twin_others) 1)))
       /\ latest steady_first twin_others - earliest steady_first twin_others == 0
       /\ lookup "avg_speed_kmh" s = Some (VFloat (Some (0 # 100))).
Proof.
  assert (H1 : altitude_usable (steady_first :: twin_others)) by (left; reflexivity).
  assert (H2 : forall s, In s twin_others -> timestamp s == timestamp steady_first)
    by (intros s [<-|[]]; reflexivity).
  exact (conj H1 (conj H2
    (avg_speed_zero_without_elapsed steady_first twin_others no_agg
       None None (Some 24) H1 H2))).
Defined.

(** ** The pipeline *)

Section PipelineFacts.

Variable great_circle : Q -> Q -> Q -> Q -> Q.
Hypothesis great_circle_nonneg : forall a b c d, 0 <= great_circle a b c d.

(** X22: for a non-empty list of records without negative power, the
    summary computed from the extractor's output is not the no-data record
    and its rider work in joules is not negative. *)
Theorem extracted_work_reported_nonneg (messages : list message)
        (agg : AggregateBundle) (wall eff muscle : option Q) :
  messages <> [] ->
  (forall m p, In m messages -> to_float (msg_power m) = Some p -> 0 <= p) ->
  altitude_usable (parse_fit_records great_circle messages) ->
  exists s work,
    compute_metrics (parse_fit_records great_circle messages) agg wall eff muscle
    = Ok s
    /\ s <> no_data
    /\ lookup "rider_work_J" s = Some (VFloat (Some work))
    /\ 0 <= work.
Proof.
  intros Hne Hp Hu.
  pose proof (parse_fit_records_work_nonneg great_circle messages Hp) as Hw.
  destruct (parse_fit_records great_circle messages) as [|first others] eqn:E.
  - exfalso. apply (f_equal (map timestamp)) in E.
    rewrite parse_fit_records_timestamps in E.
    apply (sorted_records_nonempty messages Hne).
    destruct (sort_values (map rec messages)); [reflexivity | discriminate].
  - destruct (positive_gain_usable _ Hu) as [g Hg].
    unfold compute_metrics. rewrite Hg. cbn [bind].
    do 2 eexists. split; [reflexivity|]. split; [discriminate|].
    cbn [lookup String.eqb Ascii.eqb Bool.eqb].
    split; [reflexivity|].
    rewrite <- (py_round_zero 1). apply py_round_mono, Hw.
Qed.

(** X23: when no record has a distance and every record has a position,
    the rebuilt distance column starts at 0, holds no NaN and never
    decreases (for a great-circle formula that is never negative). *)
Theorem rebuilt_distance_grows (messages : list message) :
  messages <> [] ->
  (forall m, In m messages -> to_float (msg_distance m) = None) ->
  (forall m, In m messages ->
             to_float (msg_position_lat m) <> None
             /\ to_float (msg_position_long m) <> None) ->
  starts_at_zero_nondecreasing
    (col distance_m (parse_fit_records great_circle messages)).
Proof.
  intros Hne Hd Hpos.
  apply (reconstructed_distance_nondecreasing great_circle great_circle_nonneg);
    [exact Hne | apply distance_trigger_all_absent, Hd | |];
    right; intros x Hx E; apply in_map_iff in Hx;
    destruct Hx as [m [Hm Hin]]; destruct (Hpos m Hin) as [Hlat Hlon]; congruence.
Qed.

End PipelineFacts.

Lemma extracted_work_reported_nonneg_witness :
  power_records <> []
  /\ (forall m p, In m power_records -> to_float (msg_power m) = Some p -> 0 <= p)
  /\ altitude_usable (parse_fit_records grid_metres power_records)
  /\ exists s work,
       compute_metrics (parse_fit_records grid_metres power_records)
                       no_agg None None (Some 24) = Ok s
       /\ s <> no_data
       /\ lookup "rider_work_J" s = Some (VFloat (Some work))
       /\ 0 <= work.
Proof.
  assert (H1 : power_records <> []) by discriminate.
  assert (H2 : forall m p, In m power_records ->
                           to_float (msg_power m) = Some p -> 0 <= p).
  { intros m p [<-|[<-|[<-|[]]]] E; cbn in E; try discriminate;
      injection E as <-; unfold Qle; cbn; lia. }
  assert (H3 : altitude_usable (parse_fit_records grid_metres power_records))
    by (left; reflexivity).
  exact (conj H1 (conj H2 (conj H3
    (extracted_work_reported_nonneg grid_metres power_records no_agg
       None None (Some 24) H1 H2 H3)))).
Defined.

Lemma rebuilt_distance_grows_witness :
  gps_track <> []
  /\ (forall m, In m gps_track -> to_float (msg_distance m) = None)
  /\ (forall m, In m gps_track ->
                to_float (msg_position_lat m) <> None
                /\ to_float (msg_position_long m) <> None)
  /\ starts_at_zero_nondecreasing
       (col distance_m (parse_fit_records grid_metres gps_track)).
Proof.
  assert (H1 : gps_track <> []) by discriminate.
  assert (H2 : forall m, In m gps_track -> to_float (msg_distance m) = None)
    by (intros m [<-|[<-|[<-|[]]]]; reflexivity).
  assert (H3 : forall m, In m gps_track ->
                         to_float (msg_position_lat m) <> None
                         /\ to_float (msg_position_long m) <> None)
    by (intros m [<-|[<-|[<-|[]]]]; split; discriminate).
  exact (conj H1 (conj H2 (conj H3
    (rebuilt_distance_grows grid_metres grid_metres_nonneg gps_track H1 H2 H3)))).
Defined.
